(** * Charity compliance tracker: query and aggregation engine

    A shallow embedding of the policy library ([getAllPolicies]'s
    consumers [filterPolicies], [sortPolicies], [paginatePolicies]), of the
    sanctions search route and of the analytics route, together with the
    properties the specification states about them.

    JavaScript values are modelled as follows.
    - strings: [string] (a sequence of code units), compared with [<=] and
      [>=] unit by unit ([String.leb]);
    - array lengths, page numbers and page sizes: [Z]; the functions below
      are only meant for integral arguments and a non-zero page size
      (for which the double arithmetic of the source is exact); the
      policies route, which hands over what [parseInt] returns, has the
      other numbers as well ([PoliciesRoute.paginate_body]);
    - optional fields ([field?: T]): [option T];
    - string-literal union types: inductive types;
    - objects used as counters ([Record<K, number>]): [gmap string nat] for
      the counters keyed by an enum, a list of keys and values in the order
      of creation for the timeline, whose keys are read from the data;
    - the numbers produced by [Date.prototype.getTime] and [Math.max]:
      [jsnum], which has the two special values the source can produce;
    - a number in the body of an answer: [option Z], where [None] is the
      [null] that [JSON.stringify] writes for [NaN] and the infinities.

    Three built-ins depend on Unicode tables and on the engine's locale data:
    [String.prototype.toLowerCase], [String.prototype.localeCompare] and
    the [Date] string parser.  They are variables of the sections that use
    them; instances for plain ASCII text and ISO calendar dates are given in
    [Ascii_instances] and used in the examples.

    Parameters with a default value in the source ([sortBy], [order], [page],
    [perPage]) are explicit arguments here. *)

From Stdlib Require Import ZArith Lia List Bool Ascii.
From Stdlib Require String.
From stdpp Require Import base option list sorting gmap strings.

Local Open Scope Z_scope.

(** ** JavaScript built-ins used by the sources *)

Module JS.

(** Truthiness of a string: every string but the empty one. *)
Definition truthy (s : string) : bool :=
  match s with EmptyString => false | String _ _ => true end.

(** [o] as the condition of an [if] or the left operand of [&&], for an
    optional string: the string when it is present and non-empty. *)
Definition truthy_opt (o : option string) : option string :=
  match o with
  | Some s => if truthy s then Some s else None
  | None => None
  end.

(** [s.includes(sub)] *)
Definition includes (s sub : string) : bool :=
  match String.index 0 sub s with Some _ => true | None => false end.

(** [s.replace(pat, rep)] for a string pattern: the first occurrence only. *)
Definition replace (s pat rep : string) : string :=
  match String.index 0 pat s with
  | Some i =>
      String.substring 0 i s +:+ rep +:+
      String.substring (i + String.length pat)
                       (String.length s - (i + String.length pat)) s
  | None => s
  end.

(** [a <= b] on strings. *)
Definition str_le (a b : string) : bool := String.leb a b.

(** [arr.includes(x)] *)
Definition array_includes {A} `{EqDecision A} (arr : list A) (x : A) : bool :=
  bool_decide (x ∈ arr).

(** [arr.slice(start, end)]: a negative index counts from the end of the
    array, both indices are clamped to [0 .. length], and the result is
    empty when the clamped end is not after the clamped start. *)
Definition slice {A} (arr : list A) (start end_ : Z) : list A :=
  let len := Z.of_nat (length arr) in
  let k := if start <? 0 then Z.max (len + start) 0 else Z.min start len in
  let final := if end_ <? 0 then Z.max (len + end_) 0 else Z.min end_ len in
  take (Z.to_nat (final - k)) (drop (Z.to_nat k) arr).

(** [Math.ceil(a / b)] for integral [a] and non-zero integral [b]. *)
Definition ceil_div (a b : Z) : Z := - ((- a) / b).

(** [arr.sort(cmp)] returns the stable sort of [arr] by [cmp] whenever
    [cmp] is a consistent comparator: elements that compare equal keep
    their order.  Insertion from the right is such a sort. *)
Section Sort.
Context {A : Type} (cmp : A → A → Z).

Fixpoint insert_sorted (x : A) (l : list A) : list A :=
  match l with
  | [] => [x]
  | y :: t => if cmp x y <=? 0 then x :: y :: t else y :: insert_sorted x t
  end.

Fixpoint sort (l : list A) : list A :=
  match l with
  | [] => []
  | x :: t => insert_sorted x (sort t)
  end.
End Sort.

(** The names that every plain object inherits from [Object.prototype],
    which [key in obj] finds as it finds the keys of [obj] itself. *)
Definition Object_prototype_members : list string :=
  ["constructor"; "__defineGetter__"; "__defineSetter__"; "hasOwnProperty";
   "__lookupGetter__"; "__lookupSetter__"; "isPrototypeOf";
   "propertyIsEnumerable"; "toString"; "valueOf"; "__proto__";
   "toLocaleString"].

(** Numbers as [getTime] and [Math.max] produce them. *)
Inductive jsnum : Type :=
| NaN
| NegInfinity
| Num (z : Z).

(** [Math.max(a, b)] *)
Definition max2 (a b : jsnum) : jsnum :=
  match a, b with
  | NaN, _ | _, NaN => NaN
  | NegInfinity, y => y
  | x, NegInfinity => x
  | Num x, Num y => Num (Z.max x y)
  end.

(** [Math.max(...xs)]: [-Infinity] for no argument, [NaN] as soon as one
    argument is [NaN]. *)
Definition Math_max (xs : list jsnum) : jsnum := foldl max2 NegInfinity xs.

(** A number as [JSON.stringify] writes it in a response body: [NaN] and
    the infinities are written [null], here [None]. *)
Definition json_number (x : jsnum) : option Z :=
  match x with
  | Num z => Some z
  | NaN | NegInfinity => None
  end.

End JS.

(** ** The record model (types/policy.ts) *)

Inductive Regulator : Type :=
| CC | ICO | OFSI | HSE | HMRC | FR | OSCR | CCNI | ASA.

Inductive ComplianceDomain : Type :=
| governance | safeguarding | gdpr | health_safety
| financial_reporting | risk_management | anti_fraud | sanctions.

Inductive DocumentType : Type :=
| guidance | case | enforcement | regulation | alert | sanction.

Inductive RiskLevel : Type :=
| low | medium | high | critical.

#[global] Instance Regulator_eq_dec : EqDecision Regulator.
Proof. solve_decision. Defined.
#[global] Instance ComplianceDomain_eq_dec : EqDecision ComplianceDomain.
Proof. solve_decision. Defined.
#[global] Instance DocumentType_eq_dec : EqDecision DocumentType.
Proof. solve_decision. Defined.
#[global] Instance RiskLevel_eq_dec : EqDecision RiskLevel.
Proof. solve_decision. Defined.

(** The string each enum value is at run time. *)
Definition regulator_key (r : Regulator) : string :=
  match r with
  | CC => "CC" | ICO => "ICO" | OFSI => "OFSI" | HSE => "HSE" | HMRC => "HMRC"
  | FR => "FR" | OSCR => "OSCR" | CCNI => "CCNI" | ASA => "ASA"
  end.

Definition domain_key (d : ComplianceDomain) : string :=
  match d with
  | governance => "governance" | safeguarding => "safeguarding"
  | gdpr => "gdpr" | health_safety => "health_safety"
  | financial_reporting => "financial_reporting"
  | risk_management => "risk_management" | anti_fraud => "anti_fraud"
  | sanctions => "sanctions"
  end.

Definition document_type_key (t : DocumentType) : string :=
  match t with
  | guidance => "guidance" | case => "case" | enforcement => "enforcement"
  | regulation => "regulation" | alert => "alert" | sanction => "sanction"
  end.

Definition risk_level_key (r : RiskLevel) : string :=
  match r with
  | low => "low" | medium => "medium" | high => "high" | critical => "critical"
  end.

(** All values of the [Regulator] type. *)
Definition all_regulators : list Regulator :=
  [CC; ICO; OFSI; HSE; HMRC; FR; OSCR; CCNI; ASA].

(** [CharityPolicy], with the fields that the library and the two routes
    read. *)
Record CharityPolicy : Type := mkPolicy {
  id : string;
  title : string;
  summary : string;
  source_url : string;
  published_date : string;
  last_updated : string;
  regulator : Regulator;
  domain : ComplianceDomain;
  document_type : DocumentType;
  charity_name : option string;
  risk_level : option RiskLevel;
  case_id : option string;
  sanctions_regime : option string;
  designated_by : option string;
  keywords : option (list string)
}.

(** A facet of [PolicyFilters] of type [T | T[]]. *)
Inductive OneOrMany (A : Type) : Type :=
| One (a : A)
| Many (l : list A).
Arguments One {A} a.
Arguments Many {A} l.

(** [Array.isArray(x) ? x : [x]] *)
Definition as_array {A} (x : OneOrMany A) : list A :=
  match x with One a => [a] | Many l => l end.

Record PolicyFilters : Type := mkFilters {
  f_search : option string;
  f_regulator : option (OneOrMany Regulator);
  f_domain : option (OneOrMany ComplianceDomain);
  f_document_type : option (OneOrMany DocumentType);
  f_date_from : option string;
  f_date_to : option string;
  f_has_case_id : option bool;
  f_risk_level : option string
}.

Inductive SortField : Type := by_published_date | by_last_updated | by_title.
Inductive SortOrder : Type := asc | desc.

(** ** lib/policies.ts: pagination *)

Record Page : Type := mkPage {
  pg_data : list CharityPolicy;
  pg_total : Z;
  pg_page : Z;
  pg_totalPages : Z
}.

Definition paginatePolicies (policies : list CharityPolicy) (page perPage : Z)
  : Page :=
  let total := Z.of_nat (length policies) in
  let totalPages := JS.ceil_div total perPage in
  let start := (page - 1) * perPage in
  let data := JS.slice policies start (start + perPage) in
  {| pg_data := data; pg_total := total; pg_page := page;
     pg_totalPages := totalPages |}.

(** ** lib/policies.ts: filtering and sorting *)

Section Policies.

(** [s.toLowerCase()] *)
Variable toLowerCase : string → string.
(** [a.localeCompare(b)]: negative, zero or positive. *)
Variable localeCompare : string → string → Z.

(** *** filterPolicies *)

(** The predicate of the text search, for the lowered query. *)
Definition search_pred (searchLower : string) (p : CharityPolicy) : bool :=
  JS.includes (toLowerCase (title p)) searchLower
  || JS.includes (toLowerCase (summary p)) searchLower
  || match JS.truthy_opt (charity_name p) with
     | Some n => JS.includes (toLowerCase n) searchLower
     | None => false
     end
  || match keywords p with
     | Some ks => existsb (λ k, JS.includes (toLowerCase k) searchLower) ks
     | None => false
     end.

(** The predicate of the "cases only" filter. *)
Definition case_pred (p : CharityPolicy) : bool :=
  match JS.truthy_opt (case_id p) with Some _ => true | None => false end
  || bool_decide (document_type p = case)
  || bool_decide (document_type p = enforcement).

(** [p.risk_level === level] *)
Definition risk_pred (level : string) (p : CharityPolicy) : bool :=
  match risk_level p with
  | Some r => bool_decide (risk_level_key r = level)
  | None => false
  end.

Definition filterPolicies (policies : list CharityPolicy)
    (filters : PolicyFilters) : list CharityPolicy :=
  let result := policies in
  let result :=
    match JS.truthy_opt (f_search filters) with
    | Some search =>
        let searchLower := toLowerCase search in
        List.filter (search_pred searchLower) result
    | None => result
    end in
  let result :=
    match f_regulator filters with
    | Some r =>
        let regulators := as_array r in
        List.filter (λ p, JS.array_includes regulators (regulator p)) result
    | None => result
    end in
  let result :=
    match f_domain filters with
    | Some d =>
        let domains := as_array d in
        List.filter (λ p, JS.array_includes domains (domain p)) result
    | None => result
    end in
  let result :=
    match f_document_type filters with
    | Some t =>
        let types := as_array t in
        List.filter (λ p, JS.array_includes types (document_type p)) result
    | None => result
    end in
  let result :=
    match JS.truthy_opt (f_date_from filters) with
    | Some date_from =>
        List.filter (λ p, JS.str_le date_from (published_date p)) result
    | None => result
    end in
  let result :=
    match JS.truthy_opt (f_date_to filters) with
    | Some date_to =>
        List.filter (λ p, JS.str_le (published_date p) date_to) result
    | None => result
    end in
  let result :=
    match f_has_case_id filters with
    | Some true => List.filter case_pred result
    | _ => result
    end in
  let result :=
    match JS.truthy_opt (f_risk_level filters) with
    | Some level => List.filter (risk_pred level) result
    | None => result
    end in
  result.

(** *** sortPolicies *)

Definition sort_key (sortBy : SortField) (p : CharityPolicy) : string :=
  match sortBy with
  | by_published_date => published_date p
  | by_last_updated => last_updated p
  | by_title => title p
  end.

(** The comparator handed to [sort]. *)
Definition sort_comparator (sortBy : SortField) (order : SortOrder)
    (a b : CharityPolicy) : Z :=
  let comparison :=
    match sortBy with
    | by_title => localeCompare (title a) (title b)
    | _ => localeCompare (sort_key sortBy a) (sort_key sortBy b)
    end in
  match order with
  | desc => - comparison
  | asc => comparison
  end.

Definition sortPolicies (policies : list CharityPolicy)
    (sortBy : SortField) (order : SortOrder) : list CharityPolicy :=
  JS.sort (sort_comparator sortBy order) policies.

End Policies.

(** ** app/api/sanctions/route.ts *)

Module SanctionsRoute.
Section Route.

(** [s.toLowerCase()] *)
Variable toLowerCase : string → string.

Record SanctionHit : Type := mkHit {
  hit_id : string;
  hit_name : string;
  hit_regime : option string;
  hit_designated_by : option string;
  hit_listed_date : string;
  hit_source_url : string
}.

(** The two bodies the route answers with when nothing throws. *)
Inductive SanctionsResponse : Type :=
| TooShort (success : bool) (data : list SanctionHit) (message : string)
| Searched (success : bool) (query : string) (count : Z)
           (data : list SanctionHit) (warning : option string).

Definition sanctions_too_short_message : string :=
  "Provide at least 2 characters to search".
Definition sanctions_warning : string :=
  "This is for information only. Always verify against the official OFSI list.".

(** [!name || name.length < 2] *)
Definition name_too_short (name : option string) : bool :=
  match name with
  | None => true
  | Some n => negb (JS.truthy n) || (Z.of_nat (String.length n) <? 2)
  end.

(** The records the search keeps: [matches] after both filters. *)
Definition matches (allPolicies : list CharityPolicy)
    (name : string) (regime : option string) : list CharityPolicy :=
  let sanctions_ :=
    List.filter (λ p, bool_decide (domain p = sanctions)) allPolicies in
  let nameLower := toLowerCase name in
  let matches :=
    List.filter
      (λ s, JS.includes (toLowerCase (title s)) nameLower
            || (JS.truthy (summary s)
                && JS.includes (toLowerCase (summary s)) nameLower))
      sanctions_ in
  match JS.truthy_opt regime with
  | Some regime =>
      List.filter
        (λ s, match sanctions_regime s with
              | Some r => JS.includes (toLowerCase r) (toLowerCase regime)
              | None => false
              end)
        matches
  | None => matches
  end.

Definition sanction_hit (m : CharityPolicy) : SanctionHit :=
  {| hit_id := id m;
     hit_name := JS.replace (title m) "Sanctions: " "";
     hit_regime := sanctions_regime m;
     hit_designated_by := designated_by m;
     hit_listed_date := published_date m;
     hit_source_url := source_url m |}.

(** [GET] of the sanctions route; [allPolicies] is what [getAllPolicies]
    returns, [name] and [regime] are the two query parameters. *)
Definition GET (allPolicies : list CharityPolicy)
    (name regime : option string) : SanctionsResponse :=
  match name with
  | Some n =>
      if name_too_short name
      then TooShort true [] sanctions_too_short_message
      else
        let matches := matches allPolicies n regime in
        let results := map sanction_hit matches in
        Searched true n (Z.of_nat (length results))
                 (JS.slice results 0 50)
                 (if Z.of_nat (length results) =? 0 then None
                  else Some sanctions_warning)
  | None => TooShort true [] sanctions_too_short_message
  end.

(** The [count] and [warning] properties of a body, when it has them, and
    its [data]. *)
Definition response_count (r : SanctionsResponse) : option Z :=
  match r with
  | TooShort _ _ _ => None
  | Searched _ _ c _ _ => Some c
  end.

Definition response_warning (r : SanctionsResponse) : option string :=
  match r with
  | TooShort _ _ _ => None
  | Searched _ _ _ _ w => w
  end.

Definition response_data (r : SanctionsResponse) : list SanctionHit :=
  match r with
  | TooShort _ d _ => d
  | Searched _ _ _ d _ => d
  end.

Definition response_success (r : SanctionsResponse) : bool :=
  match r with
  | TooShort s _ _ => s
  | Searched s _ _ _ _ => s
  end.

End Route.
End SanctionsRoute.

(** ** app/api/analytics/route.ts *)

Module AnalyticsRoute.
Section Route.

(** [a.localeCompare(b)]: negative, zero or positive. *)
Variable localeCompare : string → string → Z.
(** [new Date(s).getTime()]: [None] stands for [NaN] (an invalid date). *)
Variable Date_getTime : string → option Z.

(** [if (k in m) m[k]++] for the counters keyed by an enum: no value of the
    three enums is a member of [Object.prototype], so [k in m] is the test
    that [k] is a key of [m] itself. *)
Definition bump (k : string) (m : gmap string nat) : gmap string nat :=
  match m !! k with
  | Some n => <[k := S n]> m
  | None => m
  end.

(** The four counters before the loop over the policies. *)
Definition byRegulator_init : gmap string nat :=
  <["CC" := 0%nat]> (<["ICO" := 0%nat]> (<["OFSI" := 0%nat]>
    (<["HSE" := 0%nat]> (<["HMRC" := 0%nat]> (<["FR" := 0%nat]> ∅))))).

Definition byDomain_init : gmap string nat :=
  <["governance" := 0%nat]> (<["safeguarding" := 0%nat]>
    (<["gdpr" := 0%nat]> (<["health_safety" := 0%nat]>
      (<["financial_reporting" := 0%nat]> (<["risk_management" := 0%nat]>
        (<["anti_fraud" := 0%nat]> (<["sanctions" := 0%nat]> ∅))))))).

Definition byType_init : gmap string nat :=
  <["guidance" := 0%nat]> (<["case" := 0%nat]> (<["enforcement" := 0%nat]>
    (<["regulation" := 0%nat]> (<["alert" := 0%nat]>
      (<["sanction" := 0%nat]> ∅))))).

(** The timeline object: its own keys in the order of their creation (the
    order of [Object.entries] for keys that are not array indices), each with
    its value; the value [None] is [NaN]. *)
Fixpoint own_value (key : string) (obj : list (string * option nat))
  : option (option nat) :=
  match obj with
  | [] => None
  | (k, v) :: rest => if String.eqb k key then Some v else own_value key rest
  end.

(** [obj[key] = v] for a number [v]: the value of an own key is replaced
    where it is, a new key is created at the end; assigning a number to
    [__proto__] does nothing. *)
Fixpoint set_own (key : string) (v : option nat)
    (obj : list (string * option nat)) : list (string * option nat) :=
  match obj with
  | [] => [(key, v)]
  | (k, w) :: rest =>
      if String.eqb k key then (k, v) :: rest else (k, w) :: set_own key v rest
  end.

Definition assign (key : string) (v : option nat)
    (obj : list (string * option nat)) : list (string * option nat) :=
  if String.eqb key "__proto__" then obj else set_own key v obj.

(** [if (month in timeline) timeline[month]++].  The test holds for the own
    keys and for the members of [Object.prototype]; an own number goes up by
    one ([NaN] stays [NaN]), and an inherited member, which is not a number,
    gives [NaN], stored under a new own key. *)
Definition bump_month (month : string) (obj : list (string * option nat))
  : list (string * option nat) :=
  match own_value month obj with
  | Some v => assign month (S <$> v) obj
  | None =>
      if bool_decide (month ∈ JS.Object_prototype_members)
      then assign month None obj
      else obj
  end.

(** [timeline[key] = 0] for the twelve month keys, which the route derives
    from the clock; [months] is that list of keys, oldest first, each the
    first seven characters ([YYYY-MM]) of an ISO date. *)
Definition timeline_init (months : list string) : list (string * option nat) :=
  foldl (λ obj key, assign key (Some 0%nat) obj) [] months.

Record Counters : Type := mkCounters {
  byRegulator : gmap string nat;
  byDomain : gmap string nat;
  byType : gmap string nat;
  timeline : list (string * option nat)
}.

(** The body of [policies.forEach]. *)
Definition count_policy (c : Counters) (p : CharityPolicy) : Counters :=
  {| byRegulator := bump (regulator_key (regulator p)) (byRegulator c);
     byDomain := bump (domain_key (domain p)) (byDomain c);
     byType := bump (document_type_key (document_type p)) (byType c);
     timeline :=
       bump_month (String.substring 0 7 (published_date p)) (timeline c) |}.

Definition count_policies (months : list string)
    (policies : list CharityPolicy) : Counters :=
  foldl count_policy
        {| byRegulator := byRegulator_init; byDomain := byDomain_init;
           byType := byType_init; timeline := timeline_init months |}
        policies.

Record HighRiskItem : Type := mkHighRisk {
  hr_id : string;
  hr_title : string;
  hr_domain : ComplianceDomain;
  hr_risk_level : option RiskLevel;
  hr_date : string
}.

Definition highRisk (policies : list CharityPolicy) : list CharityPolicy :=
  JS.slice
    (JS.sort
       (λ a b, localeCompare (published_date b) (published_date a))
       (List.filter
          (λ p, bool_decide (risk_level p = Some high)
                || bool_decide (risk_level p = Some critical))
          policies))
    0 10.

(** The [summary] of the body, as [NextResponse.json] writes it. *)
Record Summary : Type := mkSummary {
  sm_total : Z;
  sm_last_updated : option Z   (* [None] is [null] *)
}.

Definition getTime (s : string) : JS.jsnum :=
  match Date_getTime s with Some t => JS.Num t | None => JS.NaN end.

(** The value of [last_updated] before the body is written: [None] is the
    [null] of the source, for no record. *)
Definition last_updated_value (policies : list CharityPolicy)
  : option JS.jsnum :=
  if Z.of_nat (length policies) >? 0
  then Some (JS.Math_max (map (λ p, getTime (last_updated p)) policies))
  else None.

Definition summary_of (policies : list CharityPolicy) : Summary :=
  {| sm_total := Z.of_nat (length policies);
     sm_last_updated := last_updated_value policies ≫= JS.json_number |}.

Record Analytics : Type := mkAnalytics {
  an_success : bool;
  an_summary : Summary;
  by_regulator : gmap string nat;
  by_domain : gmap string nat;
  by_type : gmap string nat;
  an_timeline : list (string * option nat);   (* a count of [None] is [null] *)
  high_risk_recent : list HighRiskItem
}.

(** [GET] of the analytics route: the body it answers with when nothing
    throws; [policies] is what [getAllPolicies] returns and [months] the
    twelve month keys of the timeline. *)
Definition GET (months : list string)
    (policies : list CharityPolicy) : Analytics :=
  let c := count_policies months policies in
  {| an_success := true;
     an_summary := summary_of policies;
     by_regulator := byRegulator c;
     by_domain := byDomain c;
     by_type := byType c;
     an_timeline := timeline c;
     high_risk_recent :=
       map (λ p, {| hr_id := id p; hr_title := title p;
                    hr_domain := domain p; hr_risk_level := risk_level p;
                    hr_date := published_date p |})
           (highRisk policies) |}.

End Route.
End AnalyticsRoute.

Import SanctionsRoute AnalyticsRoute.

(** ** Instances of the three built-ins for ASCII text and ISO dates *)

Module Ascii_instances.

(** Lower-casing of the letters [A] to [Z]. *)
Definition lower_ascii (c : ascii) : ascii :=
  let n := nat_of_ascii c in
  if (65 <=? n)%nat && (n <=? 90)%nat then ascii_of_nat (n + 32) else c.

Fixpoint toLowerCase (s : string) : string :=
  match s with
  | EmptyString => EmptyString
  | String c t => String (lower_ascii c) (toLowerCase t)
  end.

(** Comparison unit by unit, which is how every collation orders two ISO
    dates. *)
Definition localeCompare (a b : string) : Z :=
  match String.compare a b with
  | Lt => -1
  | Eq => 0
  | Gt => 1
  end.

Definition digit (c : ascii) : option Z :=
  let n := nat_of_ascii c in
  if (48 <=? n)%nat && (n <=? 57)%nat then Some (Z.of_nat (n - 48)) else None.

Fixpoint digits (acc : Z) (cs : list ascii) : option Z :=
  match cs with
  | [] => Some acc
  | c :: t => d ← digit c; digits (10 * acc + d) t
  end.

Definition is_leap (y : Z) : bool :=
  ((y mod 4 =? 0) && negb (y mod 100 =? 0)) || (y mod 400 =? 0).

Definition days_in_month (y m : Z) : Z :=
  if m =? 2 then (if is_leap y then 29 else 28)
  else if (m =? 4) || (m =? 6) || (m =? 9) || (m =? 11) then 30
  else 31.

(** Days from 1970-01-01 to the civil date [y-m-d]. *)
Definition days_from_civil (y m d : Z) : Z :=
  let y' := if m <=? 2 then y - 1 else y in
  let era := y' / 400 in
  let yoe := y' - era * 400 in
  let mp := if m >? 2 then m - 3 else m + 9 in
  let doy := (153 * mp + 2) / 5 + d - 1 in
  let doe := yoe * 365 + yoe / 4 - yoe / 100 + doy in
  era * 146097 + doe - 719468.

(** [new Date(s).getTime()] for [s] of the form [YYYY-MM-DD] naming a day
    of the calendar: midnight UTC of that day, in milliseconds. *)
Definition Date_getTime (s : string) : option Z :=
  match String.list_ascii_of_string s with
  | [y1; y2; y3; y4; "-"%char; m1; m2; "-"%char; d1; d2] =>
      y ← digits 0 [y1; y2; y3; y4];
      m ← digits 0 [m1; m2];
      d ← digits 0 [d1; d2];
      if (1 <=? m) && (m <=? 12) && (1 <=? d) && (d <=? days_in_month y m)
      then Some (days_from_civil y m d * 86400000)
      else None
  | _ => None
  end.

End Ascii_instances.

(** ** Notions used to state the properties *)

(** A filter specification with every facet absent. *)
Definition no_filters : PolicyFilters :=
  {| f_search := None; f_regulator := None; f_domain := None;
     f_document_type := None; f_date_from := None; f_date_to := None;
     f_has_case_id := None; f_risk_level := None |}.

(** [filters] without its "cases only" flag. *)
Definition without_case_flag (filters : PolicyFilters) : PolicyFilters :=
  {| f_search := f_search filters; f_regulator := f_regulator filters;
     f_domain := f_domain filters; f_document_type := f_document_type filters;
     f_date_from := f_date_from filters; f_date_to := f_date_to filters;
     f_has_case_id := None; f_risk_level := f_risk_level filters |}.

(** One of the three multi-value facets is present and empty. *)
Definition has_empty_facet (filters : PolicyFilters) : Prop :=
  f_regulator filters = Some (Many [])
  ∨ f_domain filters = Some (Many [])
  ∨ f_document_type filters = Some (Many []).

(** The conjunction of the predicates that [filterPolicies] applies in turn. *)
Definition policy_matches (toLowerCase : string → string)
    (filters : PolicyFilters) (p : CharityPolicy) : bool :=
  match JS.truthy_opt (f_search filters) with
  | Some s => search_pred toLowerCase (toLowerCase s) p
  | None => true
  end
  && match f_regulator filters with
     | Some r => JS.array_includes (as_array r) (regulator p)
     | None => true
     end
  && match f_domain filters with
     | Some d => JS.array_includes (as_array d) (domain p)
     | None => true
     end
  && match f_document_type filters with
     | Some t => JS.array_includes (as_array t) (document_type p)
     | None => true
     end
  && match JS.truthy_opt (f_date_from filters) with
     | Some d => JS.str_le d (published_date p)
     | None => true
     end
  && match JS.truthy_opt (f_date_to filters) with
     | Some d => JS.str_le (published_date p) d
     | None => true
     end
  && match f_has_case_id filters with
     | Some true => case_pred p
     | _ => true
     end
  && match JS.truthy_opt (f_risk_level filters) with
     | Some level => risk_pred level p
     | None => true
     end.


(** What the ECMAScript standard asks of a comparator for [sort] to be
    defined: opposite signs on swapped arguments, and transitivity. *)
Record consistent_comparator {A} (cmp : A → A → Z) : Prop := {
  cmp_swap : ∀ a b, Z.sgn (cmp a b) = - Z.sgn (cmp b a);
  cmp_trans : ∀ a b c, cmp a b <= 0 → cmp b c <= 0 → cmp a c <= 0
}.

(** No two records of the list have publication dates that compare equal. *)
Fixpoint distinct_dates (localeCompare : string → string → Z)
    (l : list CharityPolicy) : Prop :=
  match l with
  | [] => True
  | a :: t =>
      Forall (λ b, localeCompare (published_date a) (published_date b) ≠ 0) t
      ∧ distinct_dates localeCompare t
  end.

(** A record is a match of the sanctions search for [name] and [regime]. *)
Definition is_sanctions_match (toLowerCase : string → string)
    (name : string) (regime : option string) (p : CharityPolicy) : bool :=
  bool_decide (domain p = sanctions)
  && (JS.includes (toLowerCase (title p)) (toLowerCase name)
      || (JS.truthy (summary p)
          && JS.includes (toLowerCase (summary p)) (toLowerCase name)))
  && match JS.truthy_opt regime, sanctions_regime p with
     | None, _ => true
     | Some rg, Some r => JS.includes (toLowerCase r) (toLowerCase rg)
     | Some _, None => false
     end.

(** The sum of the counts of a counter object. *)
Definition counts_total (m : gmap string nat) : nat :=
  map_fold (λ _ n acc, (n + acc)%nat) 0%nat m.

(** Sample records. *)
Definition sample (i date : string) (r : Regulator) (d : ComplianceDomain)
    (t : DocumentType) : CharityPolicy :=
  {| id := i; title := "Annual guidance"; summary := "Summary";
     source_url := "https://example.org"; published_date := date;
     last_updated := date; regulator := r; domain := d; document_type := t;
     charity_name := None; risk_level := None; case_id := None;
     sanctions_regime := None; designated_by := None; keywords := None |}.

Definition sanction_sample (i : string) : CharityPolicy :=
  {| id := i; title := "Sanctions: John Smith"; summary := "Listed person";
     source_url := "https://example.org"; published_date := "2024-01-15";
     last_updated := "2024-01-15"; regulator := OFSI; domain := sanctions;
     document_type := sanction; charity_name := None; risk_level := None;
     case_id := None; sanctions_regime := Some "Russia";
     designated_by := Some "UK"; keywords := None |}.

From Stdlib Require Import Btauto.

(** ** Further built-ins *)

Module JSText.

(** [s.split(sep)] for a separator of one character. *)
Fixpoint split (sep : ascii) (s : string) : list string :=
  match s with
  | EmptyString => [EmptyString]
  | String c t =>
      if Ascii.eqb c sep then EmptyString :: split sep t
      else match split sep t with
           | w :: ws => String c w :: ws
           | [] => [String c EmptyString]
           end
  end.

(** [arr.join(sep)] for an array of strings. *)
Definition join (sep : string) (arr : list string) : string :=
  String.concat sep arr.

(** [a || b] for two optional strings. *)
Definition or_else (a b : option string) : option string :=
  match JS.truthy_opt a with
  | Some x => Some x
  | None => b
  end.

(** [a || d] for an optional string and a string. *)
Definition or_default (a : option string) (d : string) : string :=
  match JS.truthy_opt a with
  | Some x => x
  | None => d
  end.

(** [a === s] for an optional string and a string. *)
Definition strict_eq (a : option string) (s : string) : bool :=
  match a with
  | Some x => String.eqb x s
  | None => false
  end.

(** The numbers [parseInt] returns: [NaN] when the string does not start
    with a number, an infinity when the digits overflow, an integer
    otherwise. *)
Inductive number : Type :=
| Not_a_number
| Infinite (negative : bool)
| Finite (z : Z).

(** A number as [JSON.stringify] writes it in a body: [null], here [None],
    for [NaN] and the infinities. *)
Definition json_number (x : number) : option Z :=
  match x with
  | Finite z => Some z
  | Not_a_number | Infinite _ => None
  end.

(** Whether a character occurs in a string. *)
Fixpoint has_char (c : ascii) (s : string) : bool :=
  match s with
  | EmptyString => false
  | String x t => Ascii.eqb x c || has_char c t
  end.

End JSText.

(** ** The enum values behind their run-time strings *)

Definition all_domains : list ComplianceDomain :=
  [governance; safeguarding; gdpr; health_safety; financial_reporting;
   risk_management; anti_fraud; sanctions].

Definition all_document_types : list DocumentType :=
  [guidance; case; enforcement; regulation; alert; sanction].

Definition all_risk_levels : list RiskLevel := [low; medium; high; critical].

(** The value of the type that a string is, if it is one: what a cast
    [s as Regulator] yields when the cast is sound. *)
Definition regulator_of_key (s : string) : option Regulator :=
  List.find (λ r, String.eqb (regulator_key r) s) all_regulators.

Definition domain_of_key (s : string) : option ComplianceDomain :=
  List.find (λ d, String.eqb (domain_key d) s) all_domains.

Definition document_type_of_key (s : string) : option DocumentType :=
  List.find (λ t, String.eqb (document_type_key t) s) all_document_types.

Definition risk_level_of_key (s : string) : option RiskLevel :=
  List.find (λ r, String.eqb (risk_level_key r) s) all_risk_levels.

Definition sort_field_of_key (s : string) : option SortField :=
  if String.eqb s "published_date" then Some by_published_date
  else if String.eqb s "last_updated" then Some by_last_updated
  else if String.eqb s "title" then Some by_title
  else None.

(** ** lib/policies.ts: the loader *)

Module Loader.

(** [cell || undefined] *)
Definition optional (cell : option string) : option string :=
  JS.truthy_opt cell.

(** [cell ? cell.split('|') : undefined] *)
Definition optional_list (cell : option string) : option (list string) :=
  JSText.split "|" <$> JS.truthy_opt cell.

(** A record as the loader builds it, with the fields that [CharityPolicy]
    has above.  The loader copies the cells of the
    required columns and casts the cells of the enum columns without a check,
    so each of these fields holds whatever the row holds: any string, or
    nothing ([undefined]) when the row has no such column. *)
Record Loaded : Type := mkLoaded {
  l_id : option string;
  l_title : option string;
  l_summary : option string;
  l_source_url : option string;
  l_published_date : option string;
  l_last_updated : option string;
  l_regulator : option string;
  l_domain : option string;
  l_document_type : option string;
  l_charity_name : option string;
  l_risk_level : option string;
  l_case_id : option string;
  l_sanctions_regime : option string;
  l_designated_by : option string;
  l_keywords : option (list string)
}.

(** The record made of one row of the file; a row is the object csv-parse
    builds, from column names to cells. *)
Definition policy_of_row (row : gmap string string) : Loaded :=
  {| l_id := row !! "id";
     l_title := row !! "title";
     l_summary := row !! "summary";
     l_source_url := row !! "source_url";
     l_published_date := row !! "published_date";
     l_last_updated := row !! "last_updated";
     l_regulator := row !! "regulator";
     l_domain := row !! "domain";
     l_document_type := row !! "document_type";
     l_charity_name := optional (row !! "charity_name");
     l_risk_level := optional (row !! "risk_level");
     l_case_id := optional (row !! "case_id");
     l_sanctions_regime := optional (row !! "sanctions_regime");
     l_designated_by := optional (row !! "designated_by");
     l_keywords := optional_list (row !! "keywords") |}.

(** [getAllPolicies]; [file] is the parsed content of the data file, [None]
    when the file does not exist. *)
Definition getAllPolicies (file : option (list (gmap string string)))
  : list Loaded :=
  match file with
  | None => []
  | Some records => map policy_of_row records
  end.

(** A loaded record as a value of the declared type [CharityPolicy], when it
    is one: its required fields are there and its enum fields hold values of
    their enums. *)
Definition as_CharityPolicy (r : Loaded) : option CharityPolicy :=
  id_ ← l_id r;
  title_ ← l_title r;
  summary_ ← l_summary r;
  source_url_ ← l_source_url r;
  published_date_ ← l_published_date r;
  last_updated_ ← l_last_updated r;
  regulator_ ← l_regulator r ≫= regulator_of_key;
  domain_ ← l_domain r ≫= domain_of_key;
  document_type_ ← l_document_type r ≫= document_type_of_key;
  risk_level_ ←
    match l_risk_level r with
    | Some level => Some <$> risk_level_of_key level
    | None => Some None
    end;
  Some {| id := id_; title := title_; summary := summary_;
          source_url := source_url_; published_date := published_date_;
          last_updated := last_updated_; regulator := regulator_;
          domain := domain_; document_type := document_type_;
          charity_name := l_charity_name r;
          risk_level := risk_level_;
          case_id := l_case_id r;
          sanctions_regime := l_sanctions_regime r;
          designated_by := l_designated_by r;
          keywords := l_keywords r |}.

End Loader.

(** ** The policies route ([GET] over the three functions of the library) *)

Module PoliciesRoute.

(** The query parameters the route reads, each as [searchParams.get] returns
    it. *)
Record Query : Type := mkQuery {
  q_search : option string;
  q_regulator : option string;
  q_domain : option string;
  q_document_type : option string;
  q_date_from : option string;
  q_date_to : option string;
  q_cases_only : option string;
  q_risk_level : option string;
  q_page : option string;
  q_per_page : option string;
  q_sort_by : option string;
  q_sort_order : option string
}.

(** [x.split(',') as T[]], set when [x] is truthy.  A string that is not of
    the enum equals the facet of no record, so it is left out of the list. *)
Definition facet_of_param {A} (of_key : string → option A)
    (x : option string) : option (OneOrMany A) :=
  (λ s, Many (omap of_key (JSText.split "," s))) <$> JS.truthy_opt x.

(** The filters built from the query parameters. *)
Definition filters_of_query (q : Query) : PolicyFilters :=
  {| f_search := JS.truthy_opt (q_search q);
     f_regulator := facet_of_param regulator_of_key (q_regulator q);
     f_domain := facet_of_param domain_of_key (q_domain q);
     f_document_type :=
       facet_of_param document_type_of_key (q_document_type q);
     f_date_from := JS.truthy_opt (q_date_from q);
     f_date_to := JS.truthy_opt (q_date_to q);
     f_has_case_id :=
       match q_cases_only q with
       | Some c => if String.eqb c "true" then Some true else None
       | None => None
       end;
     f_risk_level := JS.truthy_opt (q_risk_level q) |}.

(** [order === 'desc'] is the only test made on the sort order. *)
Definition sort_order_of_key (s : string) : SortOrder :=
  if String.eqb s "desc" then desc else asc.

Definition available_regulators : list string :=
  ["CC"; "ICO"; "OFSI"; "HSE"; "HMRC"; "FR"].
Definition available_domains : list string :=
  ["governance"; "safeguarding"; "gdpr"; "health_safety";
   "financial_reporting"; "risk_management"; "anti_fraud"; "sanctions"].
Definition available_document_types : list string :=
  ["guidance"; "case"; "enforcement"; "regulation"; "alert"; "sanction"].

(** What [paginatePolicies] returns, as the body carries it, for the
    numbers that [parseInt] can hand over.  For an integer [page] and a
    non-zero integer [perPage] it is the result of [paginatePolicies].
    Otherwise the arithmetic of the source gives: a [start] or an end that is
    [NaN] or infinite, for which [slice] is empty, as soon as one of the two
    is not an integer (and the empty slice from [0] to [0] for a page size of
    [0]); a [totalPages] of [Math.ceil(total / perPage)], which is [NaN] or
    infinite for a page size of [0] or [NaN], and [0] for an infinite one;
    and a [page] that is the number received.  The body writes [null] for
    [NaN] and the infinities. *)
Record PageBody : Type := mkPageBody {
  pb_data : list CharityPolicy;
  pb_total : Z;
  pb_page : option Z;
  pb_totalPages : option Z
}.

Definition paginate_body (policies : list CharityPolicy)
    (page perPage : JSText.number) : PageBody :=
  {| pb_data :=
       match page, perPage with
       | JSText.Finite pg, JSText.Finite pp =>
           pg_data (paginatePolicies policies pg pp)
       | _, _ => []
       end;
     pb_total := Z.of_nat (length policies);
     pb_page := JSText.json_number page;
     pb_totalPages :=
       match perPage with
       | JSText.Finite pp =>
           if pp =? 0 then None
           else Some (JS.ceil_div (Z.of_nat (length policies)) pp)
       | JSText.Infinite _ => Some 0
       | JSText.Not_a_number => None
       end |}.

(** The body of the answer, without the echo of the filters. *)
Record Response : Type := mkResponse {
  rs_success : bool;
  rs_result : PageBody;
  rs_available_regulators : list string;
  rs_available_domains : list string;
  rs_available_document_types : list string
}.

(** An answer of the route: the body built in the [try], or the answer of
    the [catch], [{ success: false, error }] with status 500. *)
Inductive Answer : Type :=
| Ok (r : Response)
| Failed.

(** The fields of the loader's records that hold strings and that the record
    model leaves out. *)
Definition other_text_fields : list string :=
  ["charity_number"; "charity_income_band"; "case_status"; "outcome";
   "cc_registered_number"; "cc_suffix"; "cc_status";
   "cc_governing_document"; "cc_primary_region"].

Section Route.

(** [s.toLowerCase()] *)
Variable toLowerCase : string → string.
(** [a.localeCompare(b)]: negative, zero or positive. *)
Variable localeCompare : string → string → Z.
(** [parseInt(s, 10)] *)
Variable parseInt : string → JSText.number.
(** [other_text name a] is the string that the record [a] holds in the field
    [name], one of [other_text_fields], if it holds one. *)
Variable other_text : string → CharityPolicy → option string.
(** [sort] chooses the pairs it hands to the comparator, and the choice is
    the engine's.  [sort_compares_first cmp test l] is whether, sorting [l]
    by [cmp], it hands over a pair whose first component passes [test]. *)
Variable sort_compares_first :
  (CharityPolicy → CharityPolicy → Z) → (CharityPolicy → bool) →
  list CharityPolicy → bool.

(** [a[name]] when it is a string.  There is none in a field that is absent
    or that holds a list or a number, and none under a name that is no field
    of the record, where [a[name]] is [undefined] or a member of
    [Object.prototype]. *)
Definition text_property (name : string) (a : CharityPolicy)
  : option string :=
  if String.eqb name "id" then Some (id a)
  else if String.eqb name "title" then Some (title a)
  else if String.eqb name "summary" then Some (summary a)
  else if String.eqb name "source_url" then Some (source_url a)
  else if String.eqb name "published_date" then Some (published_date a)
  else if String.eqb name "last_updated" then Some (last_updated a)
  else if String.eqb name "regulator" then Some (regulator_key (regulator a))
  else if String.eqb name "domain" then Some (domain_key (domain a))
  else if String.eqb name "document_type"
       then Some (document_type_key (document_type a))
  else if String.eqb name "charity_name" then charity_name a
  else if String.eqb name "risk_level"
       then risk_level_key <$> risk_level a
  else if String.eqb name "case_id" then case_id a
  else if String.eqb name "sanctions_regime" then sanctions_regime a
  else if String.eqb name "designated_by" then designated_by a
  else if bool_decide (name ∈ other_text_fields) then other_text name a
  else None.

(** [String(b[name])], which is what [localeCompare] makes of its argument,
    for a [b[name]] that is a string or [undefined]. *)
Definition shown (name : string) (b : CharityPolicy) : string :=
  default "undefined" (text_property name b).

(** The comparator of [sortPolicies] under any name, on the pairs where it
    does not throw. *)
Definition comparator_by_name (name : string) (order : SortOrder)
    (a b : CharityPolicy) : Z :=
  let comparison := localeCompare (shown name a) (shown name b) in
  match order with
  | desc => - comparison
  | asc => comparison
  end.

(** [sortPolicies(policies, sortBy, order)] as the route calls it, with the
    [sortBy] that the cast let through.  [a[sortBy].localeCompare(...)]
    throws for a record [a] without a string under that name, and the result
    is [None] when the sort throws.  A list of at most one record is not
    compared; a list of two or more is compared at least once, so the sort
    throws when no record has a string there; when some have one and some
    have none, it throws if the engine hands one of the latter over as a
    first argument, and sorts them as the string [undefined] if not. *)
Definition sortPolicies_by_name (policies : list CharityPolicy)
    (name : string) (order : SortOrder) : option (list CharityPolicy) :=
  let throws (a : CharityPolicy) : bool :=
    match text_property name a with
    | Some _ => false
    | None => true
    end in
  let sorted := JS.sort (comparator_by_name name order) policies in
  if (length policies <=? 1)%nat then Some sorted
  else if forallb throws policies then None
  else if existsb throws policies
          && sort_compares_first (comparator_by_name name order) throws
                                 policies
       then None
  else Some sorted.

(** [GET] of the policies route; [allPolicies] is what [getAllPolicies]
    returns, records of the declared type.  Nothing but the sort can throw
    on them. *)
Definition GET (allPolicies : list CharityPolicy) (q : Query) : Answer :=
  let filters := filters_of_query q in
  let page := parseInt (JSText.or_default (q_page q) "1") in
  let perPage := parseInt (JSText.or_default (q_per_page q) "20") in
  let sortBy := JSText.or_default (q_sort_by q) "published_date" in
  let sortOrder :=
    sort_order_of_key (JSText.or_default (q_sort_order q) "desc") in
  let policies := allPolicies in
  let policies := filterPolicies toLowerCase policies filters in
  match sortPolicies_by_name policies sortBy sortOrder with
  | Some policies =>
      let result := paginate_body policies page perPage in
      Ok {| rs_success := true;
            rs_result := result;
            rs_available_regulators := available_regulators;
            rs_available_domains := available_domains;
            rs_available_document_types := available_document_types |}
  | None => Failed
  end.

End Route.
End PoliciesRoute.

(** ** The charity route ([GET] by registration number) *)

Module CharityRoute.
Section Route.

(** The type of [cc_latest_income], which the route only passes on. *)
Variable number : Type.

(** [CharityPolicy] with the register fields that this route reads. *)
Record RegisterPolicy : Type := mkRegisterPolicy {
  policy : CharityPolicy;
  charity_number : option string;
  cc_registered_number : option string;
  cc_status : option string;
  cc_latest_income : option number;
  cc_primary_region : option string;
  cc_governing_document : option string
}.

Record CharityInfo : Type := mkCharityInfo {
  ci_charity_number : option string;
  ci_charity_name : option string;
  ci_cc_status : option string;
  ci_cc_latest_income : option number;
  ci_cc_primary_region : option string;
  ci_cc_governing_document : option string
}.

Record Response : Type := mkResponse {
  cr_success : bool;
  cr_charity : option CharityInfo;   (* [None] is [null] *)
  cr_policies : list RegisterPolicy;
  cr_total : Z
}.

(** The predicate of the filter on the registration number. *)
Definition for_charity (regNo : string) (p : RegisterPolicy) : bool :=
  JSText.strict_eq (charity_number p) regNo
  || JSText.strict_eq (cc_registered_number p) regNo.

(** [GET] of the charity route; [policies] is what [getAllPolicies] returns
    and [regNo] the parameter of the route. *)
Definition GET (policies : list RegisterPolicy) (regNo : string) : Response :=
  let charityPolicies := List.filter (for_charity regNo) policies in
  let charityInfo :=
    match charityPolicies with
    | first :: _ =>
        Some {| ci_charity_number :=
                  JSText.or_else (charity_number first)
                                 (cc_registered_number first);
                ci_charity_name := charity_name (policy first);
                ci_cc_status := cc_status first;
                ci_cc_latest_income := cc_latest_income first;
                ci_cc_primary_region := cc_primary_region first;
                ci_cc_governing_document := cc_governing_document first |}
    | [] => None
    end in
  {| cr_success := true;
     cr_charity := charityInfo;
     cr_policies := charityPolicies;
     cr_total := Z.of_nat (length charityPolicies) |}.

End Route.

Arguments policy {number} _.
Arguments charity_number {number} _.
Arguments cc_registered_number {number} _.
Arguments cc_status {number} _.
Arguments cc_latest_income {number} _.
Arguments cc_primary_region {number} _.
Arguments cc_governing_document {number} _.
Arguments ci_charity_number {number} _.
Arguments ci_charity_name {number} _.
Arguments cr_success {number} _.
Arguments cr_charity {number} _.
Arguments cr_policies {number} _.
Arguments cr_total {number} _.
Arguments for_charity {number} regNo p.
Arguments GET {number} policies regNo.

End CharityRoute.

(** ** [ExplorerPage]: the state of the filters *)

Module ExplorerPage.

Record State : Type := mkState {
  search : string;
  selectedDomains : list ComplianceDomain;
  selectedRegulators : list Regulator;
  selectedTypes : list DocumentType;
  casesOnly : bool;
  dateFrom : string;
  dateTo : string;
  page : Z
}.

(** The update of [toggleDomain], [toggleRegulator] and [toggleType]. *)
Definition toggle {A} `{EqDecision A} (x : A) (prev : list A) : list A :=
  if JS.array_includes prev x
  then List.filter (λ d, negb (bool_decide (d = x))) prev
  else prev ++ [x].

Definition toggleDomain (domain : ComplianceDomain) (st : State) : State :=
  {| search := search st;
     selectedDomains := toggle domain (selectedDomains st);
     selectedRegulators := selectedRegulators st;
     selectedTypes := selectedTypes st; casesOnly := casesOnly st;
     dateFrom := dateFrom st; dateTo := dateTo st; page := page st |}.

Definition toggleRegulator (reg : Regulator) (st : State) : State :=
  {| search := search st; selectedDomains := selectedDomains st;
     selectedRegulators := toggle reg (selectedRegulators st);
     selectedTypes := selectedTypes st; casesOnly := casesOnly st;
     dateFrom := dateFrom st; dateTo := dateTo st; page := page st |}.

Definition toggleType (docType : DocumentType) (st : State) : State :=
  {| search := search st; selectedDomains := selectedDomains st;
     selectedRegulators := selectedRegulators st;
     selectedTypes := toggle docType (selectedTypes st);
     casesOnly := casesOnly st;
     dateFrom := dateFrom st; dateTo := dateTo st; page := page st |}.

Definition clearFilters (st : State) : State :=
  {| search := ""; selectedDomains := []; selectedRegulators := [];
     selectedTypes := []; casesOnly := false; dateFrom := ""; dateTo := "";
     page := 1 |}.

(** [if (arr.length) params.set(key, arr.join(','))] *)
Definition list_param {A} (key : A → string) (arr : list A) : option string :=
  match arr with
  | [] => None
  | _ => Some (JSText.join "," (map key arr))
  end.

(** [if (s) params.set(key, s)] *)
Definition text_param (s : string) : option string :=
  if JS.truthy s then Some s else None.

Section Fetch.

(** [String(n)] *)
Variable String_of_number : Z → string.

(** The parameters [fetchPolicies] sends, as the policies route reads them
    (encoding them in the URL and decoding them there changes nothing). *)
Definition params (st : State) : PoliciesRoute.Query :=
  {| PoliciesRoute.q_search := text_param (search st);
     PoliciesRoute.q_domain := list_param domain_key (selectedDomains st);
     PoliciesRoute.q_regulator :=
       list_param regulator_key (selectedRegulators st);
     PoliciesRoute.q_document_type :=
       list_param document_type_key (selectedTypes st);
     PoliciesRoute.q_cases_only := if casesOnly st then Some "true" else None;
     PoliciesRoute.q_date_from := text_param (dateFrom st);
     PoliciesRoute.q_date_to := text_param (dateTo st);
     PoliciesRoute.q_risk_level := None;
     PoliciesRoute.q_page := Some (String_of_number (page st));
     PoliciesRoute.q_per_page := Some (String_of_number 20);
     PoliciesRoute.q_sort_by := None;
     PoliciesRoute.q_sort_order := None |}.

End Fetch.
End ExplorerPage.

(** ** Further notions used to state properties *)

(** A facet of one specification is absent or the same as in the other. *)
Definition facet_weaker {A} (o' o : option A) : Prop := o' = None ∨ o' = o.

(** [g] asks for no more than [f]: each of its facets is absent or is the
    facet of [f]. *)
Definition weaker_filters (g f : PolicyFilters) : Prop :=
  facet_weaker (f_search g) (f_search f)
  ∧ facet_weaker (f_regulator g) (f_regulator f)
  ∧ facet_weaker (f_domain g) (f_domain f)
  ∧ facet_weaker (f_document_type g) (f_document_type f)
  ∧ facet_weaker (f_date_from g) (f_date_from f)
  ∧ facet_weaker (f_date_to g) (f_date_to f)
  ∧ facet_weaker (f_has_case_id g) (f_has_case_id f)
  ∧ facet_weaker (f_risk_level g) (f_risk_level f).

(** [filters] with its falsy facets (an empty string, [false]) removed. *)
Definition drop_falsy (filters : PolicyFilters) : PolicyFilters :=
  {| f_search := JS.truthy_opt (f_search filters);
     f_regulator := f_regulator filters;
     f_domain := f_domain filters;
     f_document_type := f_document_type filters;
     f_date_from := JS.truthy_opt (f_date_from filters);
     f_date_to := JS.truthy_opt (f_date_to filters);
     f_has_case_id :=
       match f_has_case_id filters with
       | Some true => Some true
       | _ => None
       end;
     f_risk_level := JS.truthy_opt (f_risk_level filters) |}.

(** [filters] with the given bounds on the publication date. *)
Definition with_dates (date_from date_to : option string)
    (filters : PolicyFilters) : PolicyFilters :=
  {| f_search := f_search filters; f_regulator := f_regulator filters;
     f_domain := f_domain filters; f_document_type := f_document_type filters;
     f_date_from := date_from; f_date_to := date_to;
     f_has_case_id := f_has_case_id filters;
     f_risk_level := f_risk_level filters |}.

(** The filters that the state of the explorer page stands for. *)
Definition filters_of_state (st : ExplorerPage.State) : PolicyFilters :=
  {| f_search := ExplorerPage.text_param (ExplorerPage.search st);
     f_regulator :=
       match ExplorerPage.selectedRegulators st with
       | [] => None
       | rs => Some (Many rs)
       end;
     f_domain :=
       match ExplorerPage.selectedDomains st with
       | [] => None
       | ds => Some (Many ds)
       end;
     f_document_type :=
       match ExplorerPage.selectedTypes st with
       | [] => None
       | ts => Some (Many ts)
       end;
     f_date_from := ExplorerPage.text_param (ExplorerPage.dateFrom st);
     f_date_to := ExplorerPage.text_param (ExplorerPage.dateTo st);
     f_has_case_id := if ExplorerPage.casesOnly st then Some true else None;
     f_risk_level := None |}.


(** Two records are tied for a comparator. *)
Definition tied {A} (cmp : A → A → Z) (z y : A) : bool := cmp z y =? 0.

(** A key of the timeline as the route makes them: [YYYY-MM]. *)
Definition is_digit (c : ascii) : bool :=
  (48 <=? nat_of_ascii c)%nat && (nat_of_ascii c <=? 57)%nat.

Definition is_month_key (s : string) : bool :=
  match String.list_ascii_of_string s with
  | [y1; y2; y3; y4; "-"%char; m1; m2] =>
      forallb is_digit [y1; y2; y3; y4; m1; m2]
  | _ => false
  end.

(** Some record has a [published_date] whose first seven characters are
    [key]. *)
Definition published_under (key : string) (policies : list CharityPolicy)
  : bool :=
  existsb (λ p, String.eqb (String.substring 0 7 (published_date p)) key)
          policies.

(** The timeline object when [c m] records have been counted under each
    month [m], and [seen] tells whether the key [valueOf] was met. *)
Definition timeline_shape (months : list string) (c : string → nat)
    (seen : bool) : list (string * option nat) :=
  map (λ m, (m, Some (c m))) months
  ++ (if seen then [("valueOf", None)] else []).

(** The number of records with a given month of publication. *)
Definition published_in (month : string) (policies : list CharityPolicy) : nat :=
  length (List.filter
            (λ p, bool_decide (String.substring 0 7 (published_date p) = month))
            policies).

(** [parseInt(s, 10)] on ASCII text: blanks are skipped, a sign is read, and
    then the digits up to the first character that is none; the result is
    [NaN] when there is no digit there. *)
Fixpoint skip_blanks (cs : list ascii) : list ascii :=
  match cs with
  | c :: t =>
      if (nat_of_ascii c =? 32)%nat
         || ((9 <=? nat_of_ascii c)%nat && (nat_of_ascii c <=? 13)%nat)
      then skip_blanks t else cs
  | [] => []
  end.

Fixpoint leading_digits (cs : list ascii) : list ascii :=
  match cs with
  | c :: t => if is_digit c then c :: leading_digits t else []
  | [] => []
  end.

Definition ascii_parseInt (s : string) : JSText.number :=
  let read (cs : list ascii) : option Z :=
    match leading_digits cs with
    | [] => None
    | ds => Ascii_instances.digits 0 ds
    end in
  let value :=
    match skip_blanks (String.list_ascii_of_string s) with
    | "-"%char :: cs => Z.opp <$> read cs
    | "+"%char :: cs => read cs
    | cs => read cs
    end in
  match value with
  | Some z => JSText.Finite z
  | None => JSText.Not_a_number
  end.

(** ** Properties of the built-ins *)

Lemma length_slice {A} (arr : list A) (s e : Z) :
  0 <= s → 0 <= e →
  Z.of_nat (length (JS.slice arr s e))
  = Z.max 0 (Z.min e (Z.of_nat (length arr)) - Z.min s (Z.of_nat (length arr))).
Proof.
  intros Hs He. unfold JS.slice.
  destruct (Z.ltb_spec s 0) as [?|_]; [lia|].
  destruct (Z.ltb_spec e 0) as [?|_]; [lia|].
  rewrite length_take, length_drop. lia.
Qed.

Lemma slice_from_zero {A} (arr : list A) (n : Z) :
  0 <= n → JS.slice arr 0 n = take (Z.to_nat n) arr.
Proof.
  intros Hn. unfold JS.slice.
  destruct (Z.ltb_spec n 0) as [?|_]; [lia|].
  simpl. rewrite (Z.min_l 0) by lia. rewrite Z.sub_0_r.
  change (Z.to_nat 0) with 0%nat. rewrite drop_0.
  destruct (Z.min_spec n (Z.of_nat (length arr))) as [[? ->]|[? ->]]; [done|].
  rewrite Nat2Z.id. rewrite !take_ge; [done|lia..].
Qed.

Lemma ceil_div_bounds (a b : Z) :
  1 <= b → (JS.ceil_div a b - 1) * b < a <= JS.ceil_div a b * b.
Proof.
  intros Hb. unfold JS.ceil_div.
  pose proof (Z.div_mod (- a) b ltac:(lia)) as Hdm.
  pose proof (Z.mod_pos_bound (- a) b ltac:(lia)) as Hr.
  nia.
Qed.

Lemma ceil_div_nonneg (a b : Z) : 0 <= a → 1 <= b → 0 <= JS.ceil_div a b.
Proof. intros Ha Hb. pose proof (ceil_div_bounds a b Hb). nia. Qed.


(** ** Pagination *)

Lemma paginate_total policies page perPage :
  pg_total (paginatePolicies policies page perPage)
  = Z.of_nat (length policies).
Proof. reflexivity. Qed.

Lemma paginate_page_size policies k perPage :
  1 <= k → 1 <= perPage →
  Z.of_nat (length (pg_data (paginatePolicies policies k perPage)))
  = Z.min (k * perPage) (Z.of_nat (length policies))
    - Z.min ((k - 1) * perPage) (Z.of_nat (length policies)).
Proof.
  intros Hk Hp. unfold paginatePolicies; cbn [pg_data].
  assert (0 <= (k - 1) * perPage) by (apply Z.mul_nonneg_nonneg; lia).
  rewrite length_slice by lia.
  replace ((k - 1) * perPage + perPage) with (k * perPage) by lia.
  lia.
Qed.


Lemma paginate_totalPages_any_page policies page page' perPage :
  pg_totalPages (paginatePolicies policies page perPage)
  = pg_totalPages (paginatePolicies policies page' perPage).
Proof. reflexivity. Qed.



(** The scenario of 25 records read 20 at a time. *)
Example paginate_25_by_20 :
  let r := paginatePolicies
             (replicate 25 (sample "a" "2024-01-15" CC governance guidance)) 2 20 in
  length (pg_data r) = 5%nat ∧ pg_total r = 25 ∧ pg_totalPages r = 2.
Proof. repeat split. Qed.

(** C3, as the code has it: with [perPage >= 1] and [page <= 0], [total] is
    the length of the input; page [0] is empty; a negative page is the window
    of [perPage] records that ends [|page| * perPage] records before the end
    of the list, cut at the start of the list, so it is empty exactly when
    the list has no more than [|page| * perPage] records. *)
Theorem paginate_nonpositive_page policies page perPage :
  1 <= perPage → page <= 0 →
  let total := Z.of_nat (length policies) in
  let r := paginatePolicies policies page perPage in
  pg_total r = total
  ∧ (page = 0 → pg_data r = [])
  ∧ (page < 0 →
     pg_data r
     = take (Z.to_nat (Z.min perPage (Z.max 0 (total + page * perPage))))
            (drop (Z.to_nat (Z.max 0 (total + (page - 1) * perPage))) policies))
  ∧ (pg_data r = [] ↔ page = 0 ∨ total <= - page * perPage).
Proof.
  intros Hp Hpage total r.
  assert (Hzero : page = 0 → pg_data r = []).
  { intros ->. subst r. unfold paginatePolicies, JS.slice; cbn [pg_data].
    fold total.
    destruct (Z.ltb_spec ((0 - 1) * perPage) 0) as [_|?]; [|lia].
    destruct (Z.ltb_spec ((0 - 1) * perPage + perPage) 0) as [?|_]; [lia|].
    replace (Z.to_nat _) with 0%nat by lia. reflexivity. }
  assert (Hneg : page < 0 →
     pg_data r
     = take (Z.to_nat (Z.min perPage (Z.max 0 (total + page * perPage))))
            (drop (Z.to_nat (Z.max 0 (total + (page - 1) * perPage))) policies)).
  { intros Hlt. subst r. unfold paginatePolicies, JS.slice; cbn [pg_data].
    fold total.
    assert (page * perPage <= - perPage) by nia.
    replace ((page - 1) * perPage + perPage) with (page * perPage) by lia.
    replace ((page - 1) * perPage) with (page * perPage - perPage) by lia.
    destruct (Z.ltb_spec (page * perPage - perPage) 0) as [_|?]; [|lia].
    destruct (Z.ltb_spec (page * perPage) 0) as [_|?]; [|lia].
    f_equal; [lia|]. f_equal; lia. }
  split; [reflexivity|]. split; [exact Hzero|]. split; [exact Hneg|].
  destruct (Z.eq_dec page 0) as [->|Hne].
  - split; [intros _; by left | intros _; by apply Hzero].
  - rewrite Hneg by lia. rewrite <- length_zero_iff_nil.
    rewrite length_take, length_drop. fold total.
    assert (page * perPage <= - perPage) by nia.
    replace ((page - 1) * perPage) with (page * perPage - perPage) by lia.
    split; [intros Hlen; right; lia | intros [?|?]; lia].
Qed.

Lemma paginate_nonpositive_page_witness :
  let policies :=
    [sample "a" "2024-01-01" CC governance guidance;
     sample "b" "2024-01-02" CC governance guidance;
     sample "c" "2024-01-03" CC governance guidance] in
  (1 <= 1 ∧ -1 <= 0)
  ∧ pg_total (paginatePolicies policies (-1) 1) = 3
  ∧ (pg_data (paginatePolicies policies (-1) 1) = [] ↔ -1 = 0 ∨ 3 <= - -1 * 1).
Proof.
  intros policies. split; [lia|].
  destruct (paginate_nonpositive_page policies (-1) 1 ltac:(lia) ltac:(lia))
    as (Ht & _ & _ & He).
  split; [exact Ht | exact He].
Defined.

(** C3, as it is stated, fails: page [-1] of three records read one at a
    time is the record before the last one, not the empty slice. *)
Lemma paginate_negative_page_not_empty :
  let a := sample "a" "2024-01-01" CC governance guidance in
  let b := sample "b" "2024-01-02" CC governance guidance in
  let c := sample "c" "2024-01-03" CC governance guidance in
  1 <= 1 ∧ -1 <= 0
  ∧ pg_data (paginatePolicies [a; b; c] (-1) 1) = [b]
  ∧ pg_data (paginatePolicies [a; b; c] (-1) 1) ≠ [].
Proof. repeat split; [lia | lia | discriminate]. Qed.

(** ** The filter engine *)

Lemma filter_filter_and {A} (p q : A → bool) (l : list A) :
  List.filter q (List.filter p l) = List.filter (λ x, p x && q x) l.
Proof.
  induction l as [|a l IH]; [done|]. simpl.
  destruct (p a); simpl; [destruct (q a)|]; by rewrite IH.
Qed.

Lemma filter_true {A} (l : list A) : List.filter (λ _, true) l = l.
Proof. induction l as [|a l IH]; [done|]. simpl. by rewrite IH. Qed.

Lemma filter_idempotent {A} (p : A → bool) (l : list A) :
  List.filter p (List.filter p l) = List.filter p l.
Proof.
  rewrite filter_filter_and. apply List.filter_ext. intros a. by destruct (p a).
Qed.

Lemma filter_all_false {A} (p : A → bool) (l : list A) :
  (∀ a, p a = false) → List.filter p l = [].
Proof.
  intros Hp. induction l as [|a l IH]; [done|]. simpl. by rewrite Hp.
Qed.

(** [filterPolicies] keeps the records that satisfy every predicate. *)
Lemma filterPolicies_filter toLowerCase policies filters :
  filterPolicies toLowerCase policies filters
  = List.filter (policy_matches toLowerCase filters) policies.
Proof.
  unfold filterPolicies, policy_matches.
  destruct (JS.truthy_opt (f_search filters)),
           (f_regulator filters), (f_domain filters),
           (f_document_type filters),
           (JS.truthy_opt (f_date_from filters)),
           (JS.truthy_opt (f_date_to filters)),
           (f_has_case_id filters) as [[]|],
           (JS.truthy_opt (f_risk_level filters));
    cbv zeta; rewrite ?filter_filter_and;
    (try by rewrite filter_true);
    apply List.filter_ext; intros a; cbn [andb];
    rewrite ?andb_true_r, ?andb_assoc; reflexivity.
Qed.

(** C5: filtering the output of [filterPolicies] again by the same
    specification changes nothing. *)
Theorem filterPolicies_idempotent toLowerCase policies filters :
  filterPolicies toLowerCase
    (filterPolicies toLowerCase policies filters) filters
  = filterPolicies toLowerCase policies filters.
Proof. rewrite !filterPolicies_filter. apply filter_idempotent. Qed.

Lemma filterPolicies_no_filters toLowerCase policies :
  filterPolicies toLowerCase policies no_filters = policies.
Proof. reflexivity. Qed.

Lemma elem_of_filterPolicies toLowerCase policies filters p :
  p ∈ filterPolicies toLowerCase policies filters
  ↔ p ∈ policies ∧ policy_matches toLowerCase filters p = true.
Proof.
  rewrite filterPolicies_filter, !list_elem_of_In. apply List.filter_In.
Qed.

(** The loader stores an optional text cell as [row.cell || undefined], so
    an optional field of a loaded record is never the empty string. *)
Lemma truthy_opt_not_empty (cell : option string) :
  JS.truthy_opt cell ≠ Some "".
Proof. destruct cell as [[|c s]|]; simpl; congruence. Qed.

Lemma case_pred_true p :
  case_id p ≠ Some "" →
  case_pred p = true
  ↔ is_Some (case_id p) ∨ document_type p = case
    ∨ document_type p = enforcement.
Proof.
  intros Hne. unfold case_pred.
  rewrite !orb_true_iff, !bool_decide_eq_true.
  destruct (case_id p) as [[|c s]|]; simpl.
  - congruence.
  - split; [intros _; left; by eexists | intros _; by do 2 left].
  - split.
    + intros [[?|?]|?]; [done|by right; left|by right; right].
    + intros [H|[?|?]]; [by destruct H|by left; right|by right].
Qed.

Lemma policy_matches_case_flag toLowerCase filters p :
  f_has_case_id filters = Some true →
  policy_matches toLowerCase filters p
  = policy_matches toLowerCase (without_case_flag filters) p && case_pred p.
Proof.
  intros Hflag. unfold policy_matches, without_case_flag; simpl.
  rewrite Hflag, andb_true_r.
  rewrite <- !andb_assoc. do 6 f_equal. apply andb_comm.
Qed.

(** C8: with the "cases only" flag set, a record (whose [case_id], when
    present, is not the empty string, as the data model has it) passes the
    flag's predicate exactly when its [case_id] is present or its
    [document_type] is [case] or [enforcement]: it is kept exactly when it is
    kept without the flag and one of the three holds. *)
Theorem has_case_id_filter toLowerCase policies filters p :
  f_has_case_id filters = Some true →
  case_id p ≠ Some "" →
  p ∈ filterPolicies toLowerCase policies filters
  ↔ p ∈ filterPolicies toLowerCase policies (without_case_flag filters)
    ∧ (is_Some (case_id p) ∨ document_type p = case
       ∨ document_type p = enforcement).
Proof.
  intros Hflag Hne. rewrite !elem_of_filterPolicies.
  rewrite (policy_matches_case_flag _ _ _ Hflag), andb_true_iff.
  rewrite (case_pred_true p Hne). tauto.
Qed.

Lemma has_case_id_filter_witness :
  let p := sample "a" "2024-01-15" CC governance enforcement in
  let q := sample "b" "2024-01-16" CC governance guidance in
  let filters :=
    {| f_search := None; f_regulator := None; f_domain := None;
       f_document_type := None; f_date_from := None; f_date_to := None;
       f_has_case_id := Some true; f_risk_level := None |} in
  (f_has_case_id filters = Some true ∧ case_id p ≠ Some "")
  ∧ p ∈ filterPolicies Ascii_instances.toLowerCase [p; q] filters.
Proof.
  intros p q filters. split; [split; [reflexivity | discriminate]|].
  apply (has_case_id_filter Ascii_instances.toLowerCase [p; q] filters p);
    [reflexivity | discriminate |].
  split; [left | right; right; reflexivity].
Defined.

Lemma array_includes_nil {A} `{EqDecision A} (x : A) :
  JS.array_includes [] x = false.
Proof. unfold JS.array_includes. apply bool_decide_eq_false. by intros ?%elem_of_nil. Qed.

(** C10: a multi-value facet that is present and empty filters out every
    record. *)
Theorem empty_facet_filters_everything toLowerCase policies filters :
  has_empty_facet filters →
  filterPolicies toLowerCase policies filters = [].
Proof.
  intros Hempty. rewrite filterPolicies_filter. apply filter_all_false.
  intros a. unfold policy_matches.
  destruct Hempty as [-> | [-> | ->]]; cbn [as_array];
    rewrite array_includes_nil;
    repeat (rewrite andb_false_r || cbn [andb]); reflexivity.
Qed.

Lemma empty_facet_filters_everything_witness :
  let policies :=
    [sample "a" "2024-01-15" CC governance guidance;
     sample "b" "2024-01-16" ICO gdpr enforcement] in
  let filters :=
    {| f_search := None; f_regulator := Some (Many []); f_domain := None;
       f_document_type := None; f_date_from := None; f_date_to := None;
       f_has_case_id := None; f_risk_level := None |} in
  has_empty_facet filters
  ∧ filterPolicies Ascii_instances.toLowerCase policies filters = []
  ∧ filterPolicies Ascii_instances.toLowerCase policies no_filters = policies.
Proof.
  intros policies filters.
  assert (He : has_empty_facet filters) by (left; reflexivity).
  split; [exact He|]. split; [|reflexivity].
  exact (empty_facet_filters_everything
           Ascii_instances.toLowerCase policies filters He).
Defined.

(** ** The sorter *)

Section SortFacts.
Context {A : Type} (cmp : A → A → Z).

Lemma insert_sorted_Permutation x l : JS.insert_sorted cmp x l ≡ₚ x :: l.
Proof.
  induction l as [|y t IH]; simpl; [done|].
  destruct (cmp x y <=? 0); [done|]. by rewrite IH, Permutation_swap.
Qed.

Lemma sort_Permutation l : JS.sort cmp l ≡ₚ l.
Proof.
  induction l as [|x t IH]; simpl; [done|].
  by rewrite insert_sorted_Permutation, IH.
Qed.

Hypothesis Hcmp : consistent_comparator cmp.

Lemma cmp_pos_swap a b : 0 < cmp a b → cmp b a <= 0.
Proof. intros H. pose proof (cmp_swap cmp Hcmp a b). lia. Qed.

Lemma cmp_zero_swap a b : cmp a b = 0 → cmp b a = 0.
Proof. intros H. pose proof (cmp_swap cmp Hcmp a b). lia. Qed.

Lemma insert_sorted_StronglySorted x l :
  StronglySorted (λ a b, cmp a b <= 0) l →
  StronglySorted (λ a b, cmp a b <= 0) (JS.insert_sorted cmp x l).
Proof.
  induction 1 as [|y t Ht IH Hy]; simpl.
  { repeat constructor. }
  destruct (Z.leb_spec (cmp x y) 0) as [Hle|Hgt].
  - constructor; [by constructor|]. constructor; [done|].
    eapply Forall_impl; [exact Hy|]. intros z Hz.
    exact (cmp_trans cmp Hcmp x y z Hle Hz).
  - constructor; [done|].
    rewrite insert_sorted_Permutation. constructor; [|done].
    by apply cmp_pos_swap.
Qed.

Lemma sort_StronglySorted l :
  StronglySorted (λ a b, cmp a b <= 0) (JS.sort cmp l).
Proof.
  induction l as [|x t IH]; simpl; [constructor|].
  by apply insert_sorted_StronglySorted.
Qed.
End SortFacts.

Lemma StronglySorted_rev {A} (R : relation A) l :
  StronglySorted R l → StronglySorted (flip R) (rev l).
Proof.
  induction 1 as [|x l Hl IH Hx]; simpl; [constructor|].
  apply StronglySorted_app. split; [|split; [done | repeat constructor]].
  intros x1 x2 Hx1 ->%list_elem_of_singleton.
  rewrite Forall_forall in Hx. apply Hx.
  by apply list_elem_of_In, in_rev, list_elem_of_In.
Qed.

Lemma StronglySorted_weaken {A} (R R' : relation A) l :
  (∀ a b, R a b → R' a b) → StronglySorted R l → StronglySorted R' l.
Proof.
  intros HR. induction 1 as [|x l Hl IH Hx]; constructor; [done|].
  eapply Forall_impl; [exact Hx|]. auto.
Qed.

Lemma sort_comparator_key localeCompare sortBy order a b :
  sort_comparator localeCompare sortBy order a b
  = match order with
    | desc => - localeCompare (sort_key sortBy a) (sort_key sortBy b)
    | asc => localeCompare (sort_key sortBy a) (sort_key sortBy b)
    end.
Proof. by destruct sortBy. Qed.

(** The comparator of [sortPolicies] is consistent when [localeCompare] is,
    in either direction. *)
Lemma sort_comparator_consistent localeCompare sortBy order :
  consistent_comparator localeCompare →
  consistent_comparator (sort_comparator localeCompare sortBy order).
Proof.
  intros [Hswap Htrans]. split.
  - intros a b. rewrite !sort_comparator_key.
    pose proof (Hswap (sort_key sortBy a) (sort_key sortBy b)).
    destruct order; rewrite ?Z.sgn_opp; lia.
  - intros a b c. rewrite !sort_comparator_key.
    pose proof (Hswap (sort_key sortBy a) (sort_key sortBy b)).
    pose proof (Hswap (sort_key sortBy b) (sort_key sortBy c)).
    pose proof (Hswap (sort_key sortBy a) (sort_key sortBy c)).
    pose proof (Htrans (sort_key sortBy a) (sort_key sortBy b)
                       (sort_key sortBy c)).
    pose proof (Htrans (sort_key sortBy c) (sort_key sortBy b)
                       (sort_key sortBy a)).
    destruct order; lia.
Qed.

Lemma distinct_dates_eq localeCompare l x y :
  consistent_comparator localeCompare →
  distinct_dates localeCompare l →
  x ∈ l → y ∈ l →
  localeCompare (published_date x) (published_date y) = 0 → x = y.
Proof.
  intros Hc. induction l as [|a t IH]; intros Hd Hx Hy Hxy.
  { by apply elem_of_nil in Hx. }
  destruct Hd as [Ha Ht]. rewrite Forall_forall in Ha.
  apply elem_of_cons in Hx as [->|Hx]; apply elem_of_cons in Hy as [->|Hy].
  - done.
  - by destruct (Ha y Hy).
  - apply (cmp_zero_swap _ Hc) in Hxy. by destruct (Ha x Hx).
  - by apply IH.
Qed.

(** C2, as the code has it: when no two records have publication dates that
    compare equal, sorting by [published_date] ascending and reversing gives,
    element for element, the descending sort.  ([localeCompare] is any
    consistent comparator, which is what the language requires of it.) *)
Theorem sort_asc_reversed_is_desc localeCompare policies :
  consistent_comparator localeCompare →
  distinct_dates localeCompare policies →
  rev (sortPolicies localeCompare policies by_published_date asc)
  = sortPolicies localeCompare policies by_published_date desc.
Proof.
  intros Hc Hd. unfold sortPolicies.
  pose proof (sort_comparator_consistent localeCompare by_published_date asc Hc)
    as Hasc.
  pose proof (sort_comparator_consistent localeCompare by_published_date desc Hc)
    as Hdesc.
  apply (StronglySorted_unique_strong
           (λ a b, sort_comparator localeCompare by_published_date desc a b <= 0)).
  - intros x1 x2 Hx1 Hx2 H12 H21.
    apply (distinct_dates_eq localeCompare policies x1 x2 Hc Hd).
    + apply list_elem_of_In, in_rev, list_elem_of_In in Hx1.
      by rewrite sort_Permutation in Hx1.
    + by rewrite sort_Permutation in Hx2.
    + unfold sort_comparator in H12, H21; cbn [sort_key] in H12, H21.
      pose proof (cmp_swap _ Hc (published_date x1) (published_date x2)). lia.
  - eapply StronglySorted_weaken;
      [|apply StronglySorted_rev, (sort_StronglySorted _ Hasc)].
    intros a b. unfold flip, sort_comparator; cbn [sort_key]. intros Hba.
    pose proof (cmp_swap _ Hc (published_date a) (published_date b)). lia.
  - apply (sort_StronglySorted _ Hdesc).
  - by rewrite <- Permutation_rev, !sort_Permutation.
Qed.

Lemma string_compare_le_trans (a b c : string) :
  String.compare a b ≠ Gt → String.compare b c ≠ Gt → String.compare a c ≠ Gt.
Proof.
  revert b c. induction a as [|x a IH]; intros [|y b] [|z c]; simpl;
    try congruence.
  unfold Ascii.compare.
  destruct (N.compare_spec (N_of_ascii x) (N_of_ascii y)) as [Exy|Lxy|Gxy],
           (N.compare_spec (N_of_ascii y) (N_of_ascii z)) as [Eyz|Lyz|Gyz],
           (N.compare_spec (N_of_ascii x) (N_of_ascii z)) as [Exz|Lxz|Gxz];
    try congruence; try lia; try apply IH.
Qed.

Lemma ascii_localeCompare_consistent :
  consistent_comparator Ascii_instances.localeCompare.
Proof.
  split; unfold Ascii_instances.localeCompare.
  - intros a b. rewrite (String.compare_antisym a b).
    by destruct (String.compare b a).
  - intros a b c Hab Hbc.
    pose proof (string_compare_le_trans a b c) as Ht.
    destruct (String.compare a b), (String.compare b c),
             (String.compare a c); try lia; exfalso; by apply Ht.
Qed.

Lemma sort_asc_reversed_is_desc_witness :
  let policies :=
    [sample "a" "2024-03-01" CC governance guidance;
     sample "b" "2023-12-25" ICO gdpr enforcement;
     sample "c" "2024-01-15" HSE health_safety alert] in
  (consistent_comparator Ascii_instances.localeCompare
   ∧ distinct_dates Ascii_instances.localeCompare policies)
  ∧ rev (sortPolicies Ascii_instances.localeCompare policies
           by_published_date asc)
    = sortPolicies Ascii_instances.localeCompare policies
        by_published_date desc.
Proof.
  intros policies.
  assert (Hd : distinct_dates Ascii_instances.localeCompare policies).
  { simpl. repeat constructor; intros H; vm_compute in H; discriminate H. }
  split; [split; [exact ascii_localeCompare_consistent | exact Hd]|].
  exact (sort_asc_reversed_is_desc Ascii_instances.localeCompare policies
           ascii_localeCompare_consistent Hd).
Defined.

(** Two records published the same day keep their input order in both
    directions, whatever the collation. *)
Lemma sort_tie_keeps_input_order localeCompare a b :
  consistent_comparator localeCompare →
  published_date a = published_date b →
  sortPolicies localeCompare [a; b] by_published_date asc = [a; b]
  ∧ sortPolicies localeCompare [a; b] by_published_date desc = [a; b].
Proof.
  intros Hc Hab.
  assert (H0 : localeCompare (published_date a) (published_date b) = 0).
  { rewrite Hab. pose proof (cmp_swap _ Hc (published_date b) (published_date b)).
    lia. }
  unfold sortPolicies; simpl. unfold sort_comparator; cbn [sort_key].
  by rewrite H0.
Qed.

(** C2, as it is stated, fails: two records published the same day come out
    of the ascending sort in input order, so reversing puts them in the
    opposite order, while the descending sort keeps the input order. *)
Lemma sort_asc_reversed_differs_on_ties :
  let a := sample "a" "2024-01-15" CC governance guidance in
  let b := sample "b" "2024-01-15" ICO gdpr enforcement in
  rev (sortPolicies Ascii_instances.localeCompare [a; b] by_published_date asc)
  = [b; a]
  ∧ sortPolicies Ascii_instances.localeCompare [a; b] by_published_date desc
    = [a; b]
  ∧ rev (sortPolicies Ascii_instances.localeCompare [a; b]
           by_published_date asc)
    ≠ sortPolicies Ascii_instances.localeCompare [a; b] by_published_date desc.
Proof. repeat split. discriminate. Qed.

(** ** The sanctions search *)

Lemma sanctions_matches_filter toLowerCase allPolicies name regime :
  matches toLowerCase allPolicies name regime
  = List.filter (is_sanctions_match toLowerCase name regime) allPolicies.
Proof.
  unfold matches, is_sanctions_match.
  destruct (JS.truthy_opt regime) as [rg|]; cbv zeta;
    rewrite ?filter_filter_and; apply List.filter_ext; intros p.
  - rewrite ?andb_assoc. by destruct (sanctions_regime p).
  - by rewrite andb_true_r.
Qed.

Lemma name_too_short_false (name : string) :
  2 <= Z.of_nat (String.length name) → name_too_short (Some name) = false.
Proof.
  intros Hlen. unfold name_too_short.
  destruct name as [|c s]; simpl in *; [lia|].
  apply Z.ltb_ge. lia.
Qed.

(** C6: for a query of at least two characters the search answers with at
    most 50 entries, the first 50 matches in input order, and with the number
    of all the matching records as [count]. *)
Theorem sanctions_search_cap toLowerCase allPolicies name regime :
  2 <= Z.of_nat (String.length name) →
  let r := SanctionsRoute.GET toLowerCase allPolicies (Some name) regime in
  let matching :=
    List.filter (is_sanctions_match toLowerCase name regime) allPolicies in
  (length (response_data r) <= 50)%nat
  ∧ response_data r = take 50 (map sanction_hit matching)
  ∧ response_count r = Some (Z.of_nat (length matching)).
Proof.
  intros Hlen r matching. subst r. unfold SanctionsRoute.GET.
  rewrite (name_too_short_false name Hlen).
  rewrite sanctions_matches_filter. fold matching.
  cbn [response_data response_count].
  rewrite slice_from_zero by lia. change (Z.to_nat 50) with 50%nat.
  split; [rewrite length_take; lia|]. split; [reflexivity|].
  by rewrite length_map.
Qed.

Lemma sanctions_search_cap_witness :
  let allPolicies :=
    sample "g" "2024-01-15" CC governance guidance
    :: replicate 51 (sanction_sample "s") in
  let r := SanctionsRoute.GET Ascii_instances.toLowerCase allPolicies
             (Some "smith") None in
  2 <= Z.of_nat (String.length "smith")
  ∧ length (response_data r) = 50%nat
  ∧ response_count r = Some 51.
Proof.
  intros allPolicies r.
  destruct (sanctions_search_cap Ascii_instances.toLowerCase allPolicies
              "smith" None ltac:(simpl; lia)) as (_ & Hdata & Hcount).
  split; [simpl; lia|]. split.
  - fold r in Hdata. rewrite Hdata. reflexivity.
  - exact Hcount.
Defined.

(** The two scenarios of the specification for the sanctions search. *)
Example sanctions_search_smith :
  let records :=
    [sanction_sample "a"; sample "b" "2024-01-15" CC governance guidance] in
  SanctionsRoute.GET Ascii_instances.toLowerCase records (Some "smith") None
  = Searched true "smith" 1
      [{| hit_id := "a"; hit_name := "John Smith";
          hit_regime := Some "Russia"; hit_designated_by := Some "UK";
          hit_listed_date := "2024-01-15";
          hit_source_url := "https://example.org" |}]
      (Some sanctions_warning).
Proof. reflexivity. Qed.

Example sanctions_search_one_character :
  SanctionsRoute.GET Ascii_instances.toLowerCase [sanction_sample "a"] (Some "s") None
  = TooShort true [] sanctions_too_short_message.
Proof. reflexivity. Qed.

(** C7, as the code has it: when the name is absent or shorter than two
    characters the route answers, whatever the records are, with the
    successful body [{success: true, data: [], message}], which has an empty
    result list, no [count] property and no [warning]. *)
Theorem sanctions_too_short toLowerCase allPolicies name regime :
  name = None ∨ (∃ n, name = Some n ∧ Z.of_nat (String.length n) < 2) →
  let r := SanctionsRoute.GET toLowerCase allPolicies name regime in
  r = TooShort true [] sanctions_too_short_message
  ∧ response_success r = true
  ∧ response_data r = []
  ∧ response_count r = None
  ∧ response_warning r = None
  ∧ ∀ others, SanctionsRoute.GET toLowerCase others name regime = r.
Proof.
  intros Hshort r.
  assert (Hr : ∀ l, SanctionsRoute.GET toLowerCase l name regime
                    = TooShort true [] sanctions_too_short_message).
  { intros l. destruct Hshort as [-> | (n & -> & Hn)]; [reflexivity|].
    unfold SanctionsRoute.GET, name_too_short.
    destruct (Z.ltb_spec (Z.of_nat (String.length n)) 2) as [_|?]; [|lia].
    by rewrite orb_true_r. }
  subst r. rewrite Hr. repeat split. intros others. apply Hr.
Qed.

Lemma sanctions_too_short_witness :
  let r := SanctionsRoute.GET Ascii_instances.toLowerCase [sanction_sample "a"]
             (Some "s") (Some "Russia") in
  (Some "s" = None
   ∨ ∃ n, Some "s" = Some n ∧ Z.of_nat (String.length n) < 2)
  ∧ r = TooShort true [] sanctions_too_short_message
  ∧ response_count r = None.
Proof.
  intros r.
  assert (Hs : Some "s" = None
               ∨ ∃ n, Some "s" = Some n ∧ Z.of_nat (String.length n) < 2).
  { right. exists "s". split; [reflexivity | simpl; lia]. }
  destruct (sanctions_too_short Ascii_instances.toLowerCase
              [sanction_sample "a"] (Some "s") (Some "Russia") Hs)
    as (Hr & _ & _ & Hc & _).
  split; [exact Hs|]. split; [exact Hr | exact Hc].
Defined.

(** C7, as it is stated, fails: the body answered to a one-character query
    has no [count] property at all, so its count is not [0]. *)
Lemma sanctions_too_short_has_no_count :
  response_count
    (SanctionsRoute.GET Ascii_instances.toLowerCase [sanction_sample "a"]
       (Some "s") None)
  = None
  ∧ response_count
      (SanctionsRoute.GET Ascii_instances.toLowerCase [sanction_sample "a"]
         (Some "s") None)
    ≠ Some 0.
Proof. split; [reflexivity | discriminate]. Qed.

(** ** The analytics aggregation *)

Lemma bump_lookup (k k' : string) (m : gmap string nat) :
  bump k m !! k' = if decide (k = k') then S <$> m !! k' else m !! k'.
Proof.
  unfold bump. destruct (decide (k = k')) as [->|Hne].
  - destruct (m !! k') as [n|] eqn:Hk; [by rewrite lookup_insert_eq | by rewrite Hk].
  - destruct (m !! k); [by rewrite lookup_insert_ne | done].
Qed.

(** A counter object after a loop of [bump]s: the keys it started with, each
    raised by the number of records that carry it. *)
Lemma bump_all_lookup {A} (key : A → string) (l : list A)
    (m : gmap string nat) (k : string) :
  foldl (λ m a, bump (key a) m) m l !! k
  = (λ n, (n + length (List.filter (λ a, bool_decide (key a = k)) l))%nat)
      <$> m !! k.
Proof.
  revert m. induction l as [|a l IH]; intros m; simpl.
  - destruct (m !! k); simpl; [f_equal; lia | done].
  - rewrite IH, bump_lookup.
    destruct (decide (key a = k)) as [Hk|Hk].
    + rewrite (bool_decide_eq_true_2 _ Hk). destruct (m !! k); simpl; [|done].
      f_equal; lia.
    + by rewrite (bool_decide_eq_false_2 _ Hk).
Qed.

Lemma count_policies_byRegulator months policies :
  byRegulator (count_policies months policies)
  = foldl (λ m p, bump (regulator_key (regulator p)) m) byRegulator_init policies.
Proof.
  unfold count_policies.
  generalize (timeline_init months), byType_init, byDomain_init, byRegulator_init.
  induction policies as [|p l IH]; intros tl ty dm rg; simpl; [done|].
  apply IH.
Qed.

Lemma count_policies_byDomain months policies :
  byDomain (count_policies months policies)
  = foldl (λ m p, bump (domain_key (domain p)) m) byDomain_init policies.
Proof.
  unfold count_policies.
  generalize (timeline_init months), byType_init, byDomain_init, byRegulator_init.
  induction policies as [|p l IH]; intros tl ty dm rg; simpl; [done|].
  apply IH.
Qed.

Lemma regulator_key_inj r r' : regulator_key r = regulator_key r' → r = r'.
Proof. destruct r, r'; simpl; intros H; (reflexivity || discriminate H). Qed.

Lemma domain_key_inj d d' : domain_key d = domain_key d' → d = d'.
Proof. destruct d, d'; simpl; intros H; (reflexivity || discriminate H). Qed.

(** What the route counts per regulator: the six regulators it seeds, each
    with the number of its records; [OSCR], [CCNI] and [ASA] have no entry. *)
Lemma by_regulator_lookup localeCompare Date_getTime months policies r :
  by_regulator (AnalyticsRoute.GET localeCompare Date_getTime months policies)
    !! regulator_key r
  = if bool_decide (r ∈ [CC; ICO; OFSI; HSE; HMRC; FR])
    then Some (length (List.filter (λ p, bool_decide (regulator p = r)) policies))
    else None.
Proof.
  cbn [AnalyticsRoute.GET by_regulator].
  rewrite count_policies_byRegulator, bump_all_lookup.
  rewrite (List.filter_ext _ (λ p, bool_decide (regulator p = r))).
  2:{ intros p. apply bool_decide_ext. split; [apply regulator_key_inj | by intros ->]. }
  by destruct r.
Qed.

(** The sibling counter, per domain, has an entry for each of the eight
    domains, with the number of its records. *)
Lemma by_domain_lookup localeCompare Date_getTime months policies d :
  by_domain (AnalyticsRoute.GET localeCompare Date_getTime months policies)
    !! domain_key d
  = Some (length (List.filter (λ p, bool_decide (domain p = d)) policies)).
Proof.
  cbn [AnalyticsRoute.GET by_domain].
  rewrite count_policies_byDomain, bump_all_lookup.
  rewrite (List.filter_ext _ (λ p, bool_decide (domain p = d))).
  2:{ intros p. apply bool_decide_ext. split; [apply domain_key_inj | by intros ->]. }
  by destruct d.
Qed.

(** C1 fails on the code: the counter is seeded with six of the nine
    regulators, so a record of [OSCR] is not counted, [OSCR] has no entry and
    the counts add up to [0] for one record. *)
Lemma by_regulator_omits_OSCR :
  let policies := [sample "a" "2024-01-15" OSCR governance guidance] in
  let r := AnalyticsRoute.GET Ascii_instances.localeCompare
             Ascii_instances.Date_getTime [] policies in
  by_regulator r !! regulator_key OSCR = None
  ∧ by_regulator r !! regulator_key CCNI = None
  ∧ by_regulator r !! regulator_key ASA = None
  ∧ counts_total (by_regulator r) = 0%nat
  ∧ sm_total (an_summary r) = 1
  ∧ counts_total (by_domain r) = 1%nat.
Proof. vm_compute. repeat split. Qed.

Lemma Math_max_from (Date_getTime : string → option Z)
    (l : list CharityPolicy) (acc : Z) :
  Forall (λ p, is_Some (Date_getTime (last_updated p))) l →
  ∃ t, foldl JS.max2 (JS.Num acc)
             (map (λ p, getTime Date_getTime (last_updated p)) l) = JS.Num t
       ∧ acc <= t
       ∧ (t = acc ∨ ∃ p, p ∈ l ∧ Date_getTime (last_updated p) = Some t)
       ∧ ∀ q u, q ∈ l → Date_getTime (last_updated q) = Some u → u <= t.
Proof.
  intros Hvalid. revert acc.
  induction Hvalid as [|p l [tp Hp] _ IH]; intros acc; cbn [map foldl].
  - exists acc. repeat split; [lia | by left |]. by intros q u ?%elem_of_nil.
  - assert (Hg : getTime Date_getTime (last_updated p) = JS.Num tp)
      by (unfold getTime; by rewrite Hp).
    rewrite Hg. cbn [JS.max2].
    destruct (IH (Z.max acc tp)) as (t & Ht & Hle & Hin & Hmax).
    exists t. split; [exact Ht|]. split; [lia|]. split.
    + destruct Hin as [->|(q & Hq & Hqt)].
      * destruct (Z.max_spec acc tp) as [[_ Hm]|[_ Hm]]; rewrite Hm.
        -- right. exists p. split; [left | by rewrite Hp].
        -- by left.
      * right. exists q. split; [by right | done].
    + intros q u [->|Hq]%elem_of_cons Hu.
      * rewrite Hp in Hu. injection Hu as <-. lia.
      * by eapply Hmax.
Qed.

Lemma max2_NaN_r (x : JS.jsnum) : JS.max2 x JS.NaN = JS.NaN.
Proof. by destruct x. Qed.

Lemma foldl_max2_NaN (l : list JS.jsnum) : foldl JS.max2 JS.NaN l = JS.NaN.
Proof. induction l as [|x l IH]; [done|]. exact IH. Qed.

Lemma foldl_max2_has_NaN (l : list JS.jsnum) (acc : JS.jsnum) :
  JS.NaN ∈ l → foldl JS.max2 acc l = JS.NaN.
Proof.
  revert acc. induction l as [|x l IH]; intros acc Hin.
  - by apply elem_of_nil in Hin.
  - apply elem_of_cons in Hin as [<-|Hin]; simpl.
    + rewrite max2_NaN_r. apply foldl_max2_NaN.
    + by apply IH.
Qed.

(** The value before the body is written, for records whose dates can all
    be read: the greatest of their times. *)
Lemma last_updated_value_max (Date_getTime : string → option Z)
    (policies : list CharityPolicy) :
  policies ≠ [] →
  Forall (λ p, is_Some (Date_getTime (last_updated p))) policies →
  ∃ t, last_updated_value Date_getTime policies = Some (JS.Num t)
       ∧ (∃ p, p ∈ policies ∧ Date_getTime (last_updated p) = Some t)
       ∧ ∀ q u, q ∈ policies →
                Date_getTime (last_updated q) = Some u → u <= t.
Proof.
  intros Hne Hvalid. unfold last_updated_value.
  destruct policies as [|p l]; [done|].
  replace (Z.of_nat (length (p :: l)) >? 0) with true
    by (symmetry; apply Z.gtb_lt; simpl; lia).
  apply Forall_cons in Hvalid as [[tp Hp] Hl].
  assert (Hg : getTime Date_getTime (last_updated p) = JS.Num tp)
    by (unfold getTime; by rewrite Hp).
  unfold JS.Math_max; cbn [map foldl]. rewrite Hg. cbn [JS.max2].
  destruct (Math_max_from Date_getTime l tp Hl) as (t & Ht & Hle & Hin & Hmax).
  exists t. split; [by rewrite Ht|]. split.
  - destruct Hin as [->|(q & Hq & Hqt)].
    + exists p. split; [left | done].
    + exists q. split; [by right | done].
  - intros q u [->|Hq]%elem_of_cons Hu.
    + rewrite Hp in Hu. injection Hu as <-. lia.
    + by eapply Hmax.
Qed.

(** The value before the body is written, when one date cannot be read. *)
Lemma last_updated_value_NaN (Date_getTime : string → option Z)
    (policies : list CharityPolicy) (p : CharityPolicy) :
  p ∈ policies → Date_getTime (last_updated p) = None →
  last_updated_value Date_getTime policies = Some JS.NaN.
Proof.
  intros Hp Hnone. unfold last_updated_value.
  replace (Z.of_nat (length policies) >? 0) with true.
  2:{ symmetry. apply Z.gtb_lt. destruct policies; [by apply elem_of_nil in Hp|].
      simpl. lia. }
  f_equal. apply foldl_max2_has_NaN.
  apply list_elem_of_fmap. exists p. split; [|done].
  unfold getTime. by rewrite Hnone.
Qed.

(** C9, as the code has it: the [last_updated] of the summary, as the body
    carries it, is [null] exactly when there is no record or when the
    [last_updated] of some record is not a date that [Date] reads
    ([Math.max] is then [NaN], which the body writes [null]); in every other
    case it is the greatest of the records' [last_updated] times. *)
Theorem analytics_last_updated localeCompare Date_getTime months policies :
  let v :=
    sm_last_updated
      (an_summary
         (AnalyticsRoute.GET localeCompare Date_getTime months policies)) in
  (v = None
   ↔ policies = []
     ∨ ∃ p, p ∈ policies ∧ Date_getTime (last_updated p) = None)
  ∧ (∀ t, v = Some t →
       (∃ p, p ∈ policies ∧ Date_getTime (last_updated p) = Some t)
       ∧ ∀ q u, q ∈ policies →
                Date_getTime (last_updated q) = Some u → u <= t).
Proof.
  intros v. subst v. cbn [AnalyticsRoute.GET an_summary].
  unfold summary_of; cbn [sm_last_updated].
  destruct (decide (policies = [])) as [->|Hne].
  { split; [split; [by left | done] | done]. }
  destruct (decide (Forall (λ p, is_Some (Date_getTime (last_updated p)))
                           policies)) as [Hall|Hsome].
  - destruct (last_updated_value_max Date_getTime policies Hne Hall)
      as (t & -> & Hin & Hmax).
    cbn [mbind option_bind JS.json_number]. split.
    + split; [done|]. intros [?|(p & Hp & Hnone)]; [done|].
      rewrite Forall_forall in Hall. destruct (Hall p Hp) as [u Hu]. congruence.
    + by intros ? [= <-].
  - apply not_Forall_Exists in Hsome; [|apply _].
    apply Exists_exists in Hsome as (p & Hp & Hnone).
    assert (Hn : Date_getTime (last_updated p) = None).
    { destruct (Date_getTime (last_updated p)) eqn:E; [|done].
      destruct Hnone. by eexists. }
    rewrite (last_updated_value_NaN Date_getTime policies p Hp Hn).
    cbn [mbind option_bind JS.json_number]. split; [|done].
    split; [|done]. intros _. right. by exists p.
Qed.

Lemma analytics_last_updated_witness :
  let policies :=
    [sample "a" "2024-01-15" CC governance guidance;
     sample "b" "2024-03-01" ICO gdpr enforcement;
     sample "c" "2023-12-25" HSE health_safety alert] in
  let v :=
    sm_last_updated
      (an_summary (AnalyticsRoute.GET Ascii_instances.localeCompare
                     Ascii_instances.Date_getTime [] policies)) in
  v = Some 1709251200000
  ∧ ∀ q u, q ∈ policies →
           Ascii_instances.Date_getTime (last_updated q) = Some u →
           u <= 1709251200000.
Proof.
  intros policies v. split; [reflexivity|].
  destruct (analytics_last_updated Ascii_instances.localeCompare
              Ascii_instances.Date_getTime [] policies) as [_ Hmax].
  exact (proj2 (Hmax 1709251200000 eq_refl)).
Defined.

(** C9, as it is stated, fails: of two records, one with a blank
    [last_updated], the summary carries [null], not the time of the other
    record, which is the greatest (and only) time there is. *)
Lemma analytics_last_updated_blank_date :
  let policies :=
    [sample "a" "2024-01-15" CC governance guidance;
     sample "b" "" ICO gdpr enforcement] in
  policies ≠ []
  ∧ Ascii_instances.Date_getTime "2024-01-15" = Some 1705276800000
  ∧ Ascii_instances.Date_getTime "" = None
  ∧ sm_last_updated
      (an_summary (AnalyticsRoute.GET Ascii_instances.localeCompare
                     Ascii_instances.Date_getTime [] policies))
    = None
  ∧ sm_last_updated
      (an_summary (AnalyticsRoute.GET Ascii_instances.localeCompare
                     Ascii_instances.Date_getTime [] policies))
    ≠ Some 1705276800000.
Proof. repeat split; discriminate. Qed.

(** The summary of three dated records and of no record. *)
Example analytics_last_updated_sample :
  sm_last_updated
    (an_summary
       (AnalyticsRoute.GET Ascii_instances.localeCompare
          Ascii_instances.Date_getTime []
          [sample "a" "2024-01-15" CC governance guidance;
           sample "b" "2024-03-01" ICO gdpr enforcement;
           sample "c" "2023-12-25" HSE health_safety alert]))
  = Some 1709251200000
  ∧ sm_last_updated
      (an_summary
         (AnalyticsRoute.GET Ascii_instances.localeCompare
            Ascii_instances.Date_getTime [] []))
    = None.
Proof. split; reflexivity. Qed.

(** ** More on the filter engine *)

Lemma List_filter_sublist {A} (p : A → bool) (l : list A) :
  List.filter p l `sublist_of` l.
Proof.
  induction l as [|a l IH]; simpl; [constructor|].
  destruct (p a); by constructor.
Qed.

Lemma List_filter_sublist_impl {A} (p q : A → bool) (l : list A) :
  (∀ a, p a = true → q a = true) →
  List.filter p l `sublist_of` List.filter q l.
Proof.
  intros Hpq. induction l as [|a l IH]; simpl; [constructor|].
  destruct (p a) eqn:Hp.
  - rewrite (Hpq a Hp). by constructor.
  - destruct (q a); [by constructor | done].
Qed.

(** X1: the result of [filterPolicies] is the input with some records left
    out: the records kept are records of the input, in the order of the
    input, and there are no more of them. *)
Theorem filterPolicies_sublist toLowerCase policies filters :
  filterPolicies toLowerCase policies filters `sublist_of` policies
  ∧ (length (filterPolicies toLowerCase policies filters) <= length policies)%nat.
Proof.
  assert (H : filterPolicies toLowerCase policies filters `sublist_of` policies).
  { rewrite filterPolicies_filter. apply List_filter_sublist. }
  split; [exact H | by apply sublist_length].
Qed.

Lemma policy_matches_weaker toLowerCase g f p :
  weaker_filters g f →
  policy_matches toLowerCase f p = true → policy_matches toLowerCase g p = true.
Proof.
  intros (H1 & H2 & H3 & H4 & H5 & H6 & H7 & H8). unfold policy_matches.
  rewrite !andb_true_iff.
  intros (((((((M1 & M2) & M3) & M4) & M5) & M6) & M7) & M8).
  repeat split.
  - by destruct H1 as [-> | ->].
  - by destruct H2 as [-> | ->].
  - by destruct H3 as [-> | ->].
  - by destruct H4 as [-> | ->].
  - by destruct H5 as [-> | ->].
  - by destruct H6 as [-> | ->].
  - by destruct H7 as [-> | ->].
  - by destruct H8 as [-> | ->].
Qed.

(** X2: facets only narrow the result.  When each facet of [g] is absent or
    is the facet of [f], what [f] keeps is kept by [g], in the same order. *)
Theorem filterPolicies_monotone toLowerCase policies g f :
  weaker_filters g f →
  filterPolicies toLowerCase policies f
  `sublist_of` filterPolicies toLowerCase policies g.
Proof.
  intros Hw. rewrite !filterPolicies_filter.
  apply List_filter_sublist_impl. intros p. by apply policy_matches_weaker.
Qed.

Lemma filterPolicies_monotone_witness :
  let policies :=
    [sample "a" "2024-01-15" CC governance guidance;
     sample "b" "2024-01-16" ICO gdpr enforcement] in
  let f :=
    {| f_search := None; f_regulator := Some (One ICO); f_domain := None;
       f_document_type := None; f_date_from := Some "2024-01-01";
       f_date_to := None; f_has_case_id := None; f_risk_level := None |} in
  let g :=
    {| f_search := None; f_regulator := None; f_domain := None;
       f_document_type := None; f_date_from := Some "2024-01-01";
       f_date_to := None; f_has_case_id := None; f_risk_level := None |} in
  weaker_filters g f
  ∧ filterPolicies Ascii_instances.toLowerCase policies f
    `sublist_of` filterPolicies Ascii_instances.toLowerCase policies g.
Proof.
  intros policies f g.
  assert (Hw : weaker_filters g f).
  { repeat split; (by left) || (by right). }
  split; [exact Hw|].
  exact (filterPolicies_monotone Ascii_instances.toLowerCase policies g f Hw).
Defined.

(** X3: two specifications can be applied in either order. *)
Theorem filterPolicies_commute toLowerCase policies f g :
  filterPolicies toLowerCase (filterPolicies toLowerCase policies f) g
  = filterPolicies toLowerCase (filterPolicies toLowerCase policies g) f.
Proof.
  rewrite !filterPolicies_filter, !filter_filter_and.
  apply List.filter_ext. intros p. apply andb_comm.
Qed.

Lemma truthy_opt_idemp (o : option string) :
  JS.truthy_opt (JS.truthy_opt o) = JS.truthy_opt o.
Proof. by destruct o as [[|c s]|]. Qed.

(** X4: a facet that is present but falsy (an empty search, date bound or
    risk level, a [has_case_id] of [false]) constrains nothing: it can be
    removed from the specification. *)
Theorem filterPolicies_drop_falsy toLowerCase policies filters :
  filterPolicies toLowerCase policies filters
  = filterPolicies toLowerCase policies (drop_falsy filters).
Proof.
  rewrite !filterPolicies_filter. apply List.filter_ext. intros p.
  unfold policy_matches, drop_falsy; cbn [f_search f_regulator f_domain
    f_document_type f_date_from f_date_to f_has_case_id f_risk_level].
  rewrite !truthy_opt_idemp. by destruct (f_has_case_id filters) as [[]|].
Qed.

(** [filterPolicies] decides record by record: the result for two lists
    put end to end is the two results put end to end. *)
Lemma filterPolicies_app toLowerCase l1 l2 filters :
  filterPolicies toLowerCase (l1 ++ l2) filters
  = filterPolicies toLowerCase l1 filters
    ++ filterPolicies toLowerCase l2 filters.
Proof. rewrite !filterPolicies_filter. apply List.filter_app. Qed.

Lemma str_le_refl (s : string) : JS.str_le s s = true.
Proof.
  unfold JS.str_le, String.leb.
  destruct (String.leb_total s s) as [H|H]; exact H.
Qed.

Lemma str_le_trans (a b c : string) :
  JS.str_le a b = true → JS.str_le b c = true → JS.str_le a c = true.
Proof.
  unfold JS.str_le, String.leb. intros Hab Hbc.
  pose proof (string_compare_le_trans a b c) as Ht.
  destruct (String.compare a b), (String.compare b c), (String.compare a c);
    try done; exfalso; by apply Ht.
Qed.

Lemma policy_matches_dates toLowerCase date_from date_to filters p :
  policy_matches toLowerCase (with_dates date_from date_to filters) p
  = policy_matches toLowerCase (with_dates None None filters) p
    && match JS.truthy_opt date_from with
       | Some d => JS.str_le d (published_date p)
       | None => true
       end
    && match JS.truthy_opt date_to with
       | Some d => JS.str_le (published_date p) d
       | None => true
       end.
Proof.
  unfold policy_matches, with_dates; cbn [f_search f_regulator f_domain
    f_document_type f_date_from f_date_to f_has_case_id f_risk_level
    JS.truthy_opt].
  btauto.
Qed.

Lemma truthy_opt_Some (s : string) :
  JS.truthy s = true → JS.truthy_opt (Some s) = Some s.
Proof. intros H. simpl. by rewrite H. Qed.

(** X5: the two date bounds are inclusive.  With both bounds set to the same
    (non-empty) date, the records kept are those of the other facets that
    were published on that very date. *)
Theorem filterPolicies_same_day toLowerCase policies filters d p :
  JS.truthy d = true →
  p ∈ filterPolicies toLowerCase policies (with_dates (Some d) (Some d) filters)
  ↔ p ∈ filterPolicies toLowerCase policies (with_dates None None filters)
    ∧ published_date p = d.
Proof.
  intros Hd. rewrite !elem_of_filterPolicies, policy_matches_dates.
  rewrite (truthy_opt_Some d Hd), !andb_true_iff.
  split.
  - intros (Hp & (Hm & H1) & H2). repeat split; [done..|].
    symmetry. by apply String.leb_antisym.
  - intros ((Hp & Hm) & <-). by rewrite !str_le_refl.
Qed.

Lemma filterPolicies_same_day_witness :
  let p := sample "a" "2024-01-15" CC governance guidance in
  let q := sample "b" "2024-01-16" ICO gdpr enforcement in
  JS.truthy "2024-01-15" = true
  ∧ p ∈ filterPolicies Ascii_instances.toLowerCase [p; q]
          (with_dates (Some "2024-01-15") (Some "2024-01-15") no_filters).
Proof.
  intros p q. split; [reflexivity|].
  apply (filterPolicies_same_day Ascii_instances.toLowerCase [p; q]
           no_filters "2024-01-15" p); [reflexivity|].
  split; [left | reflexivity].
Defined.

(** X6: an upper bound that is before the lower bound leaves nothing. *)
Theorem filterPolicies_inverted_dates toLowerCase policies filters
    date_from date_to :
  JS.truthy date_from = true → JS.truthy date_to = true →
  String.ltb date_to date_from = true →
  filterPolicies toLowerCase policies
    (with_dates (Some date_from) (Some date_to) filters) = [].
Proof.
  intros Hf Ht Hlt. rewrite filterPolicies_filter. apply filter_all_false.
  intros p. rewrite policy_matches_dates.
  rewrite (truthy_opt_Some _ Hf), (truthy_opt_Some _ Ht).
  destruct (JS.str_le date_from (published_date p)) eqn:H1;
    [|by rewrite andb_false_r].
  destruct (JS.str_le (published_date p) date_to) eqn:H2;
    [|by rewrite andb_false_r].
  pose proof (str_le_trans _ _ _ H1 H2) as H3.
  unfold JS.str_le, String.leb in H3. unfold String.ltb in Hlt.
  rewrite String.compare_antisym in H3.
  by destruct (String.compare date_to date_from).
Qed.

Lemma filterPolicies_inverted_dates_witness :
  let policies :=
    [sample "a" "2024-01-15" CC governance guidance;
     sample "b" "2024-02-16" ICO gdpr enforcement] in
  (JS.truthy "2024-03-01" = true ∧ JS.truthy "2024-01-01" = true
   ∧ String.ltb "2024-01-01" "2024-03-01" = true)
  ∧ filterPolicies Ascii_instances.toLowerCase policies
      (with_dates (Some "2024-03-01") (Some "2024-01-01") no_filters) = [].
Proof.
  intros policies. split; [repeat split|].
  exact (filterPolicies_inverted_dates Ascii_instances.toLowerCase policies
           no_filters "2024-03-01" "2024-01-01" eq_refl eq_refl eq_refl).
Defined.

Lemma array_includes_elem_of {A} `{EqDecision A} (arr : list A) (x : A) :
  JS.array_includes arr x = true ↔ x ∈ arr.
Proof. unfold JS.array_includes. apply bool_decide_eq_true. Qed.

(** X7: what each facet guarantees of the records kept.  A record kept has
    its regulator, domain and document type among the values asked for
    (one value, or any of a list), and, when a (non-empty) risk level is
    asked for, it carries that risk level: a record without a risk level is
    never kept, and a level that no record can carry keeps nothing. *)
Theorem filterPolicies_facets toLowerCase policies filters p :
  p ∈ filterPolicies toLowerCase policies filters →
  (∀ r, f_regulator filters = Some r → regulator p ∈ as_array r)
  ∧ (∀ d, f_domain filters = Some d → domain p ∈ as_array d)
  ∧ (∀ t, f_document_type filters = Some t → document_type p ∈ as_array t)
  ∧ (∀ level, JS.truthy_opt (f_risk_level filters) = Some level →
       ∃ r, risk_level p = Some r ∧ risk_level_key r = level).
Proof.
  rewrite elem_of_filterPolicies. intros [_ Hm]. unfold policy_matches in Hm.
  rewrite !andb_true_iff in Hm.
  destruct Hm as (((((((_ & M2) & M3) & M4) & _) & _) & _) & M8).
  repeat split.
  - intros r Hr. rewrite Hr in M2. by apply array_includes_elem_of.
  - intros d Hd. rewrite Hd in M3. by apply array_includes_elem_of.
  - intros t Ht. rewrite Ht in M4. by apply array_includes_elem_of.
  - intros level Hl. rewrite Hl in M8. unfold risk_pred in M8.
    destruct (risk_level p) as [r|]; [|done].
    exists r. split; [done|]. by apply bool_decide_eq_true in M8.
Qed.

Lemma filterPolicies_facets_witness :
  let p := sample "a" "2024-01-15" CC governance guidance in
  let q := sample "b" "2024-01-16" ICO gdpr enforcement in
  let filters :=
    {| f_search := None; f_regulator := Some (Many [ICO; CC]);
       f_domain := Some (One governance); f_document_type := None;
       f_date_from := None; f_date_to := None; f_has_case_id := None;
       f_risk_level := None |} in
  p ∈ filterPolicies Ascii_instances.toLowerCase [p; q] filters
  ∧ regulator p ∈ [ICO; CC].
Proof.
  intros p q filters.
  assert (Hp : p ∈ filterPolicies Ascii_instances.toLowerCase [p; q] filters)
    by left.
  split; [exact Hp|].
  destruct (filterPolicies_facets Ascii_instances.toLowerCase [p; q] filters p
              Hp) as (Hr & _).
  exact (Hr (Many [ICO; CC]) eq_refl).
Defined.

(** A risk level that is not one of the four keeps nothing. *)
Lemma filterPolicies_unknown_risk toLowerCase policies filters level :
  JS.truthy_opt (f_risk_level filters) = Some level →
  risk_level_of_key level = None →
  filterPolicies toLowerCase policies filters = [].
Proof.
  intros Hl Hnone. rewrite filterPolicies_filter. apply filter_all_false.
  intros p. unfold policy_matches. rewrite Hl. unfold risk_pred.
  destruct (risk_level p) as [r|]; [|by rewrite andb_false_r].
  rewrite bool_decide_eq_false_2; [by rewrite andb_false_r|].
  intros <-. by destruct r.
Qed.

(** ** More on the sorter *)

Section StableSort.
Context {A : Type} (cmp : A → A → Z).
Hypothesis Hcmp : consistent_comparator cmp.

Lemma cmp_refl_zero a : cmp a a = 0.
Proof. pose proof (cmp_swap cmp Hcmp a a). lia. Qed.

Lemma cmp_zero_le a b : cmp a b = 0 → cmp a b <= 0 ∧ cmp b a <= 0.
Proof. intros H. pose proof (cmp_swap cmp Hcmp a b). lia. Qed.

Lemma tied_tied z x y :
  tied cmp z x = true → tied cmp z y = true → cmp x y = 0.
Proof.
  unfold tied. intros Hx%Z.eqb_eq Hy%Z.eqb_eq.
  destruct (cmp_zero_le z x Hx) as [Hzx Hxz].
  destruct (cmp_zero_le z y Hy) as [Hzy Hyz].
  pose proof (cmp_trans cmp Hcmp x z y Hxz Hzy).
  pose proof (cmp_trans cmp Hcmp y z x Hyz Hzx).
  pose proof (cmp_swap cmp Hcmp x y). lia.
Qed.

Lemma insert_sorted_tied z x l :
  List.filter (tied cmp z) (JS.insert_sorted cmp x l)
  = List.filter (tied cmp z) (x :: l).
Proof.
  induction l as [|y t IH]; [done|]. cbn [JS.insert_sorted].
  destruct (Z.leb_spec (cmp x y) 0) as [Hle|Hgt]; [done|].
  cbn [List.filter] in *. rewrite IH.
  destruct (tied cmp z x) eqn:Hx, (tied cmp z y) eqn:Hy; try done.
  pose proof (tied_tied z x y Hx Hy). lia.
Qed.

Lemma sort_tied z l :
  List.filter (tied cmp z) (JS.sort cmp l) = List.filter (tied cmp z) l.
Proof.
  induction l as [|x t IH]; [done|]. cbn [JS.sort].
  rewrite insert_sorted_tied. cbn [List.filter]. by rewrite IH.
Qed.

Lemma insert_sorted_head x l :
  match l with [] => True | y :: _ => cmp x y <= 0 end →
  JS.insert_sorted cmp x l = x :: l.
Proof.
  destruct l as [|y t]; [done|]. intros Hle. cbn [JS.insert_sorted].
  by destruct (Z.leb_spec (cmp x y) 0); [|lia].
Qed.

Lemma sort_of_sorted l :
  StronglySorted (λ a b, cmp a b <= 0) l → JS.sort cmp l = l.
Proof.
  induction 1 as [|x t Ht IH Hx]; [done|]. cbn [JS.sort]. rewrite IH.
  apply insert_sorted_head. destruct t as [|y t']; [done|].
  by apply Forall_cons in Hx as [? _].
Qed.

(** Two sorted lists with the same records in each class of tied records,
    in the same order, are the same list. *)
Lemma stable_sorted_unique l1 l2 :
  StronglySorted (λ a b, cmp a b <= 0) l1 →
  StronglySorted (λ a b, cmp a b <= 0) l2 →
  (∀ z, List.filter (tied cmp z) l1 = List.filter (tied cmp z) l2) →
  l1 = l2.
Proof.
  assert (Hin1 : ∀ (z : A) (l : list A), tied cmp z z = true) by
    (intros; unfold tied; rewrite cmp_refl_zero; apply Z.eqb_refl).
  intros H1. revert l2.
  induction H1 as [|x1 t1 Ht1 IH Hx1]; intros l2 H2 Hcls.
  - destruct l2 as [|x2 t2]; [done|].
    specialize (Hcls x2). cbn [List.filter] in Hcls.
    by rewrite (Hin1 x2 t2) in Hcls.
  - destruct H2 as [|x2 t2 Ht2 Hx2].
    { specialize (Hcls x1). cbn [List.filter] in Hcls.
      by rewrite (Hin1 x1 t1) in Hcls. }
    rewrite Forall_forall in Hx1, Hx2.
    assert (H12 : cmp x1 x2 <= 0).
    { pose proof (Hcls x2) as Hc. cbn [List.filter] in Hc.
      rewrite (Hin1 x2 t2) in Hc.
      assert (Hx : x2 ∈ List.filter (tied cmp x2) (x1 :: t1))
        by (cbn [List.filter]; rewrite Hc; left).
      apply list_elem_of_In, List.filter_In in Hx as [Hx _].
      destruct Hx as [->|Hx]; [rewrite cmp_refl_zero; lia|].
      by apply Hx1, list_elem_of_In. }
    assert (H21 : cmp x2 x1 <= 0).
    { pose proof (Hcls x1) as Hc. cbn [List.filter] in Hc.
      rewrite (Hin1 x1 t1) in Hc.
      assert (Hx : x1 ∈ List.filter (tied cmp x1) (x2 :: t2))
        by (cbn [List.filter]; rewrite <- Hc; left).
      apply list_elem_of_In, List.filter_In in Hx as [Hx _].
      destruct Hx as [->|Hx]; [rewrite cmp_refl_zero; lia|].
      by apply Hx2, list_elem_of_In. }
    assert (Ht : tied cmp x1 x2 = true).
    { unfold tied. apply Z.eqb_eq. pose proof (cmp_swap cmp Hcmp x1 x2). lia. }
    pose proof (Hcls x1) as Hc. cbn [List.filter] in Hc.
    rewrite (Hin1 x1 t1), Ht in Hc. injection Hc as -> _.
    f_equal. apply IH; [done|]. intros z.
    specialize (Hcls z). cbn [List.filter] in Hcls.
    destruct (tied cmp z x2); [by injection Hcls | done].
Qed.

Lemma filter_insert_sorted (P : A → bool) x l :
  StronglySorted (λ a b, cmp a b <= 0) l →
  List.filter P (JS.insert_sorted cmp x l)
  = if P x then JS.insert_sorted cmp x (List.filter P l) else List.filter P l.
Proof.
  induction 1 as [|y t Ht IH Hy]; cbn [JS.insert_sorted List.filter].
  { by destruct (P x). }
  destruct (Z.leb_spec (cmp x y) 0) as [Hle|Hgt]; cbn [List.filter].
  - destruct (P x); [|done]. symmetry. apply insert_sorted_head.
    destruct (P y); [done|].
    destruct (List.filter P t) as [|e t'] eqn:E; [done|].
    assert (He : e ∈ t).
    { apply list_elem_of_In. eapply proj1, List.filter_In. rewrite E. by left. }
    rewrite Forall_forall in Hy.
    exact (cmp_trans cmp Hcmp x y e Hle (Hy e He)).
  - rewrite IH. destruct (P x), (P y); try done.
    cbn [JS.insert_sorted]. by destruct (Z.leb_spec (cmp x y) 0); [lia|].
Qed.

Lemma filter_sort (P : A → bool) l :
  List.filter P (JS.sort cmp l) = JS.sort cmp (List.filter P l).
Proof.
  induction l as [|x t IH]; [done|]. cbn [JS.sort List.filter].
  rewrite filter_insert_sorted by (by apply sort_StronglySorted).
  rewrite IH. by destruct (P x).
Qed.

End StableSort.

Lemma List_filter_rev {A} (p : A → bool) (l : list A) :
  List.filter p (rev l) = rev (List.filter p l).
Proof.
  induction l as [|a l IH]; [done|]. simpl.
  rewrite List.filter_app, IH. simpl. destruct (p a); simpl; [done|].
  by rewrite app_nil_r.
Qed.

Lemma tied_opp {A} (cmp : A → A → Z) z y :
  tied (λ a b, - cmp a b) z y = tied cmp z y.
Proof. unfold tied. destruct (Z.eqb_spec (cmp z y) 0), (Z.eqb_spec (- cmp z y) 0); lia. Qed.

Lemma consistent_opp {A} (cmp : A → A → Z) :
  consistent_comparator cmp → consistent_comparator (λ a b, - cmp a b).
Proof.
  intros [Hs Ht]. split.
  - intros a b. rewrite !Z.sgn_opp. pose proof (Hs a b). lia.
  - intros a b c H1 H2. pose proof (Hs a b). pose proof (Hs b c).
    pose proof (Hs a c). pose proof (Ht c b a). lia.
Qed.

(** Reversing an ascending stable sort is the descending stable sort of the
    reversed input. *)
Lemma sort_rev_opp {A} (cmp : A → A → Z) (l : list A) :
  consistent_comparator cmp →
  rev (JS.sort cmp l) = JS.sort (λ a b, - cmp a b) (rev l).
Proof.
  intros Hc. pose proof (consistent_opp cmp Hc) as Hc'.
  apply (stable_sorted_unique _ Hc').
  - eapply StronglySorted_weaken;
      [|apply StronglySorted_rev, (sort_StronglySorted _ Hc)].
    intros a b. unfold flip. intros Hba.
    pose proof (cmp_swap _ Hc a b). simpl. lia.
  - apply (sort_StronglySorted _ Hc').
  - intros z. rewrite (sort_tied _ Hc').
    rewrite !List_filter_rev. f_equal.
    rewrite (List.filter_ext _ (tied cmp z)) by (intros; apply tied_opp).
    rewrite (sort_tied _ Hc).
    apply List.filter_ext. intros y. symmetry. apply tied_opp.
Qed.

Lemma sort_ext {A} (c c' : A → A → Z) (l : list A) :
  (∀ a b, c a b = c' a b) → JS.sort c l = JS.sort c' l.
Proof.
  intros Hc. induction l as [|x t IH]; [done|]. cbn [JS.sort]. rewrite IH.
  generalize (JS.sort c' t). intros s.
  induction s as [|y s IHs]; [done|]. cbn [JS.insert_sorted].
  by rewrite Hc, IHs.
Qed.

(** X8: [sortPolicies] returns the records of the input, each as many times
    as the input has it, whatever the comparison. *)
Theorem sortPolicies_permutation localeCompare policies sortBy order :
  sortPolicies localeCompare policies sortBy order ≡ₚ policies
  ∧ length (sortPolicies localeCompare policies sortBy order)
    = length policies.
Proof.
  assert (H : sortPolicies localeCompare policies sortBy order ≡ₚ policies)
    by apply sort_Permutation.
  split; [exact H | by rewrite H].
Qed.

(** X9: the result of [sortPolicies] is in order: of two records of the
    result, the first never compares after the second by the sort key when
    ascending, never before it when descending. *)
Theorem sortPolicies_sorted localeCompare policies sortBy order :
  consistent_comparator localeCompare →
  StronglySorted
    (λ a b, match order with
            | asc => localeCompare (sort_key sortBy a) (sort_key sortBy b) <= 0
            | desc => 0 <= localeCompare (sort_key sortBy a) (sort_key sortBy b)
            end)
    (sortPolicies localeCompare policies sortBy order).
Proof.
  intros Hc.
  eapply StronglySorted_weaken;
    [|apply (sort_StronglySorted _
               (sort_comparator_consistent localeCompare sortBy order Hc))].
  intros a b. cbv beta. rewrite sort_comparator_key. destruct order; lia.
Qed.

Lemma sortPolicies_sorted_witness :
  let policies :=
    [sample "a" "2024-03-01" CC governance guidance;
     sample "b" "2023-12-25" ICO gdpr enforcement;
     sample "c" "2024-03-01" HSE health_safety alert] in
  consistent_comparator Ascii_instances.localeCompare
  ∧ StronglySorted
      (λ a b, 0 <= Ascii_instances.localeCompare (published_date a)
                                                 (published_date b))
      (sortPolicies Ascii_instances.localeCompare policies
         by_published_date desc).
Proof.
  intros policies. split; [exact ascii_localeCompare_consistent|].
  exact (sortPolicies_sorted Ascii_instances.localeCompare policies
           by_published_date desc ascii_localeCompare_consistent).
Defined.

Lemma tied_sort_comparator localeCompare sortBy order z y :
  tied (sort_comparator localeCompare sortBy order) z y
  = tied (λ a b, localeCompare (sort_key sortBy a) (sort_key sortBy b)) z y.
Proof.
  unfold tied. rewrite sort_comparator_key. destruct order; [done|].
  destruct (Z.eqb_spec (localeCompare (sort_key sortBy z) (sort_key sortBy y)) 0),
           (Z.eqb_spec (- localeCompare (sort_key sortBy z) (sort_key sortBy y)) 0);
    lia.
Qed.

(** X10: [sortPolicies] is stable.  The records whose sort key compares equal
    to that of a given record come out in the order they came in, in either
    direction. *)
Theorem sortPolicies_stable localeCompare policies sortBy order z :
  consistent_comparator localeCompare →
  List.filter
    (tied (λ a b, localeCompare (sort_key sortBy a) (sort_key sortBy b)) z)
    (sortPolicies localeCompare policies sortBy order)
  = List.filter
      (tied (λ a b, localeCompare (sort_key sortBy a) (sort_key sortBy b)) z)
      policies.
Proof.
  intros Hc.
  rewrite <- !(List.filter_ext _ _ (tied_sort_comparator localeCompare sortBy order z)).
  apply sort_tied. by apply sort_comparator_consistent.
Qed.

Lemma sortPolicies_stable_witness :
  let a := sample "a" "2024-03-01" CC governance guidance in
  let b := sample "b" "2023-12-25" ICO gdpr enforcement in
  let c := sample "c" "2024-03-01" HSE health_safety alert in
  consistent_comparator Ascii_instances.localeCompare
  ∧ List.filter
      (tied (λ x y, Ascii_instances.localeCompare (published_date x)
                                                  (published_date y)) a)
      (sortPolicies Ascii_instances.localeCompare [a; b; c]
         by_published_date desc)
    = [a; c].
Proof.
  intros a b c. split; [exact ascii_localeCompare_consistent|].
  exact (sortPolicies_stable Ascii_instances.localeCompare [a; b; c]
           by_published_date desc a ascii_localeCompare_consistent).
Defined.

(** X11: sorting a list that is already sorted changes nothing; so sorting
    twice by the same key and direction is sorting once. *)
Theorem sortPolicies_idempotent localeCompare policies sortBy order :
  consistent_comparator localeCompare →
  sortPolicies localeCompare
    (sortPolicies localeCompare policies sortBy order) sortBy order
  = sortPolicies localeCompare policies sortBy order.
Proof.
  intros Hc. unfold sortPolicies.
  pose proof (sort_comparator_consistent localeCompare sortBy order Hc) as Hs.
  apply sort_of_sorted, (sort_StronglySorted _ Hs).
Qed.

Lemma sortPolicies_idempotent_witness :
  let policies :=
    [sample "a" "2024-03-01" CC governance guidance;
     sample "b" "2023-12-25" ICO gdpr enforcement;
     sample "c" "2024-03-01" HSE health_safety alert] in
  consistent_comparator Ascii_instances.localeCompare
  ∧ sortPolicies Ascii_instances.localeCompare
      (sortPolicies Ascii_instances.localeCompare policies by_title asc)
      by_title asc
    = sortPolicies Ascii_instances.localeCompare policies by_title asc.
Proof.
  intros policies. split; [exact ascii_localeCompare_consistent|].
  exact (sortPolicies_idempotent Ascii_instances.localeCompare policies
           by_title asc ascii_localeCompare_consistent).
Defined.

(** X12: for every record set and every sort field, reversing the ascending
    sort gives the descending sort of the reversed input (and so the
    descending sort of the input itself only up to the order of ties). *)
Theorem sortPolicies_asc_reversed localeCompare policies sortBy :
  consistent_comparator localeCompare →
  rev (sortPolicies localeCompare policies sortBy asc)
  = sortPolicies localeCompare (rev policies) sortBy desc.
Proof.
  intros Hc. unfold sortPolicies.
  rewrite (sort_rev_opp _ _
             (sort_comparator_consistent localeCompare sortBy asc Hc)).
  apply sort_ext. intros a b. by rewrite !sort_comparator_key.
Qed.

Lemma sortPolicies_asc_reversed_witness :
  let a := sample "a" "2024-01-15" CC governance guidance in
  let b := sample "b" "2024-01-15" ICO gdpr enforcement in
  let c := sample "c" "2023-12-25" HSE health_safety alert in
  consistent_comparator Ascii_instances.localeCompare
  ∧ rev (sortPolicies Ascii_instances.localeCompare [a; b; c]
           by_published_date asc)
    = sortPolicies Ascii_instances.localeCompare [c; b; a]
        by_published_date desc.
Proof.
  intros a b c. split; [exact ascii_localeCompare_consistent|].
  exact (sortPolicies_asc_reversed Ascii_instances.localeCompare [a; b; c]
           by_published_date ascii_localeCompare_consistent).
Defined.

(** X13: filtering and sorting can be done in either order. *)
Theorem filter_sort_commute toLowerCase localeCompare policies filters
    sortBy order :
  consistent_comparator localeCompare →
  filterPolicies toLowerCase
    (sortPolicies localeCompare policies sortBy order) filters
  = sortPolicies localeCompare
      (filterPolicies toLowerCase policies filters) sortBy order.
Proof.
  intros Hc. rewrite !filterPolicies_filter. unfold sortPolicies.
  apply filter_sort. by apply sort_comparator_consistent.
Qed.

Lemma filter_sort_commute_witness :
  let policies :=
    [sample "a" "2024-03-01" CC governance guidance;
     sample "b" "2023-12-25" ICO gdpr enforcement;
     sample "c" "2024-03-01" HSE health_safety alert] in
  let filters :=
    {| f_search := None; f_regulator := Some (Many [CC; HSE]);
       f_domain := None; f_document_type := None; f_date_from := None;
       f_date_to := None; f_has_case_id := None; f_risk_level := None |} in
  consistent_comparator Ascii_instances.localeCompare
  ∧ filterPolicies Ascii_instances.toLowerCase
      (sortPolicies Ascii_instances.localeCompare policies
         by_published_date desc) filters
    = sortPolicies Ascii_instances.localeCompare
        (filterPolicies Ascii_instances.toLowerCase policies filters)
        by_published_date desc.
Proof.
  intros policies filters. split; [exact ascii_localeCompare_consistent|].
  exact (filter_sort_commute Ascii_instances.toLowerCase
           Ascii_instances.localeCompare policies filters
           by_published_date desc ascii_localeCompare_consistent).
Defined.

(** ** More on pagination *)






(** X15: for a page size [perPage >= 1], every page before the last one is
    full and every page after the last one is empty. *)
Theorem paginate_full_and_empty_pages policies perPage k :
  1 <= perPage →
  let totalPages := pg_totalPages (paginatePolicies policies k perPage) in
  (1 <= k < totalPages →
   Z.of_nat (length (pg_data (paginatePolicies policies k perPage))) = perPage)
  ∧ (totalPages < k → pg_data (paginatePolicies policies k perPage) = []).
Proof.
  intros Hp totalPages.
  assert (Hn : totalPages = JS.ceil_div (Z.of_nat (length policies)) perPage)
    by reflexivity.
  pose proof (ceil_div_bounds (Z.of_nat (length policies)) perPage Hp) as Hb.
  pose proof (ceil_div_nonneg (Z.of_nat (length policies)) perPage
                ltac:(lia) Hp) as Hnn.
  rewrite <- Hn in Hb, Hnn. split.
  - intros Hk. rewrite paginate_page_size by lia. nia.
  - intros Hk. apply length_zero_iff_nil, Nat2Z.inj.
    rewrite paginate_page_size by lia. nia.
Qed.

Lemma paginate_full_and_empty_pages_witness :
  let policies :=
    replicate 25 (sample "a" "2024-01-15" CC governance guidance) in
  1 <= 10
  ∧ Z.of_nat (length (pg_data (paginatePolicies policies 2 10))) = 10
  ∧ pg_data (paginatePolicies policies 4 10) = [].
Proof.
  intros policies. split; [lia|]. split.
  - apply (paginate_full_and_empty_pages policies 10 2 ltac:(lia)).
    vm_compute. split; [discriminate | reflexivity].
  - apply (paginate_full_and_empty_pages policies 10 4 ltac:(lia)).
    reflexivity.
Defined.

(** ** More on the sanctions search *)

Lemma sanctions_GET_searched toLowerCase allPolicies name regime :
  2 <= Z.of_nat (String.length name) →
  SanctionsRoute.GET toLowerCase allPolicies (Some name) regime
  = let results :=
      map sanction_hit
          (List.filter (is_sanctions_match toLowerCase name regime)
                       allPolicies) in
    Searched true name (Z.of_nat (length results)) (JS.slice results 0 50)
             (if Z.of_nat (length results) =? 0 then None
              else Some sanctions_warning).
Proof.
  intros Hlen. unfold SanctionsRoute.GET.
  rewrite (name_too_short_false name Hlen).
  by rewrite sanctions_matches_filter.
Qed.

(** X16: for a query of at least two characters, the answer carries the
    warning exactly when it has at least one result: no warning goes with
    an empty list, and the fixed warning goes with every other list. *)
Theorem sanctions_warning_iff_results toLowerCase allPolicies name regime :
  2 <= Z.of_nat (String.length name) →
  let r := SanctionsRoute.GET toLowerCase allPolicies (Some name) regime in
  (response_data r = [] ↔ response_count r = Some 0)
  ∧ (response_data r = [] → response_warning r = None)
  ∧ (response_data r ≠ [] → response_warning r = Some sanctions_warning).
Proof.
  intros Hlen r. subst r. rewrite (sanctions_GET_searched _ _ _ _ Hlen).
  cbv zeta. cbn [response_data response_count response_warning].
  rewrite slice_from_zero by lia. change (Z.to_nat 50) with 50%nat.
  set (results := map sanction_hit _).
  destruct results as [|h t]; cbn [length take].
  - split; [done|]. split; [done|]. by intros [].
  - destruct (Z.eqb_spec (Z.of_nat (S (length t))) 0) as [?|_]; [lia|].
    split; [|done]. split; [done|]. intros [=].
Qed.

Lemma sanctions_warning_iff_results_witness :
  let r := SanctionsRoute.GET Ascii_instances.toLowerCase
             [sanction_sample "a"] (Some "smith") None in
  2 <= Z.of_nat (String.length "smith")
  ∧ response_warning r = Some sanctions_warning.
Proof.
  intros r. split; [simpl; lia|].
  apply (sanctions_warning_iff_results Ascii_instances.toLowerCase
           [sanction_sample "a"] "smith" None ltac:(simpl; lia)).
  discriminate.
Defined.

(** X17: only the records of the sanctions domain count.  The answer is the
    same when every record of another domain is taken out of the record set,
    and each result is the projection of a record of the sanctions domain. *)
Theorem sanctions_only_sanctions_domain toLowerCase allPolicies name regime :
  SanctionsRoute.GET toLowerCase allPolicies name regime
  = SanctionsRoute.GET toLowerCase
      (List.filter (λ p, bool_decide (domain p = sanctions)) allPolicies)
      name regime
  ∧ ∀ h, h ∈ response_data
               (SanctionsRoute.GET toLowerCase allPolicies name regime) →
         ∃ p, p ∈ allPolicies ∧ domain p = sanctions ∧ h = sanction_hit p.
Proof.
  split.
  - unfold SanctionsRoute.GET. destruct name as [n|]; [|done].
    destruct (name_too_short (Some n)); [done|].
    assert (Hm : matches toLowerCase
                   (List.filter (λ p, bool_decide (domain p = sanctions))
                                allPolicies) n regime
                 = matches toLowerCase allPolicies n regime)
      by (unfold matches; by rewrite filter_idempotent).
    by rewrite Hm.
  - intros h. unfold SanctionsRoute.GET. destruct name as [n|];
      [|by intros ?%elem_of_nil].
    destruct (name_too_short (Some n)); [by intros ?%elem_of_nil|].
    cbn [response_data]. rewrite slice_from_zero by lia.
    intros Hh%(subseteq_take 50)%list_elem_of_fmap.
    destruct Hh as (p & -> & Hp).
    rewrite sanctions_matches_filter in Hp.
    apply list_elem_of_In, List.filter_In in Hp as [Hp Hm].
    exists p. split; [by apply list_elem_of_In|]. split; [|done].
    unfold is_sanctions_match in Hm. rewrite !andb_true_iff in Hm.
    destruct Hm as [[Hd _] _]. by apply bool_decide_eq_true in Hd.
Qed.

Lemma substring_whole (s : string) : String.substring 0 (String.length s) s = s.
Proof. induction s as [|c s IH]; simpl; [done | by rewrite IH]. Qed.

Lemma substring_prefix_app (a b : string) :
  String.substring 0 (String.length a) (a +:+ b) = a.
Proof. induction a as [|c a IH]; simpl; [by destruct b | by rewrite IH]. Qed.

Lemma substring_skip_app (a b : string) (m : nat) :
  String.substring (String.length a) m (a +:+ b) = String.substring 0 m b.
Proof. induction a as [|c a IH]; simpl; [done | exact IH]. Qed.

Lemma string_length_app (a b : string) :
  String.length (a +:+ b) = (String.length a + String.length b)%nat.
Proof. induction a as [|c a IH]; simpl; [done | by rewrite IH]. Qed.

Lemma index_of_prefix (a s : string) :
  String.prefix a s = true → String.index 0 a s = Some 0%nat.
Proof.
  intros Hp. destruct s as [|c s].
  - destruct a; [done | discriminate Hp].
  - change (String.index 0 a (String c s))
      with (if String.prefix a (String c s) then Some 0%nat
            else match String.index 0 a s with
                 | Some n => Some (S n)
                 | None => None
                 end).
    by rewrite Hp.
Qed.

(** Replacing a prefix. *)
Lemma replace_prefix (pat rest rep : string) :
  JS.replace (pat +:+ rest) pat rep = rep +:+ rest.
Proof.
  unfold JS.replace.
  rewrite (index_of_prefix pat (pat +:+ rest))
    by (apply String.prefix_correct, substring_prefix_app).
  cbn [String.substring Nat.add]. rewrite string_length_app.
  replace (String.length pat + String.length rest - String.length pat)%nat
    with (String.length rest) by lia.
  rewrite substring_skip_app, substring_whole.
  by destruct (pat +:+ rest).
Qed.

(** X18: the name of a result is the title of its record without the label
    [Sanctions: ] in front of it. *)
Theorem sanction_hit_strips_label m rest :
  title m = "Sanctions: " +:+ rest →
  hit_name (sanction_hit m) = rest.
Proof.
  intros Ht. cbn [sanction_hit hit_name]. rewrite Ht.
  apply (replace_prefix "Sanctions: " rest "").
Qed.

Lemma sanction_hit_strips_label_witness :
  title (sanction_sample "a") = "Sanctions: " +:+ "John Smith"
  ∧ hit_name (sanction_hit (sanction_sample "a")) = "John Smith".
Proof.
  split; [reflexivity|].
  exact (sanction_hit_strips_label (sanction_sample "a") "John Smith" eq_refl).
Defined.

(** A title that does not hold the label is the name, unchanged. *)
Lemma sanction_hit_without_label m :
  JS.includes (title m) "Sanctions: " = false →
  hit_name (sanction_hit m) = title m.
Proof.
  unfold JS.includes. cbn [sanction_hit hit_name]. unfold JS.replace.
  by destruct (String.index 0 "Sanctions: " (title m)).
Qed.

(** X19: a regime only narrows the search: for a query of at least two
    characters, the count with a regime is at most the count without one,
    and an empty regime is no regime. *)
Theorem sanctions_regime_narrows toLowerCase allPolicies name regime :
  2 <= Z.of_nat (String.length name) →
  (∃ c c',
     response_count
       (SanctionsRoute.GET toLowerCase allPolicies (Some name) regime) = Some c
     ∧ response_count
         (SanctionsRoute.GET toLowerCase allPolicies (Some name) None) = Some c'
     ∧ c <= c')
  ∧ SanctionsRoute.GET toLowerCase allPolicies (Some name) (Some "")
    = SanctionsRoute.GET toLowerCase allPolicies (Some name) None.
Proof.
  intros Hlen. split; [|reflexivity].
  rewrite !(sanctions_GET_searched _ _ _ _ Hlen). cbv zeta.
  cbn [response_count]. eexists _, _. split; [done|]. split; [done|].
  rewrite !length_map. apply inj_le, sublist_length, List_filter_sublist_impl.
  intros p. unfold is_sanctions_match. cbn [JS.truthy_opt].
  rewrite !andb_true_iff. tauto.
Qed.

Lemma sanctions_regime_narrows_witness :
  let records :=
    [sanction_sample "a"; sample "b" "2024-01-15" CC governance guidance] in
  2 <= Z.of_nat (String.length "smith")
  ∧ ∃ c c',
      response_count
        (SanctionsRoute.GET Ascii_instances.toLowerCase records (Some "smith")
           (Some "iran")) = Some c
      ∧ response_count
          (SanctionsRoute.GET Ascii_instances.toLowerCase records
             (Some "smith") None) = Some c'
      ∧ c <= c'.
Proof.
  intros records. split; [simpl; lia|].
  exact (proj1 (sanctions_regime_narrows Ascii_instances.toLowerCase records
                  "smith" (Some "iran") ltac:(simpl; lia))).
Defined.

(** ** More on the analytics aggregation *)

Lemma count_policies_byType months policies :
  byType (count_policies months policies)
  = foldl (λ m p, bump (document_type_key (document_type p)) m)
          byType_init policies.
Proof.
  unfold count_policies.
  generalize (timeline_init months), byType_init, byDomain_init, byRegulator_init.
  induction policies as [|p l IH]; intros tl ty dm rg; simpl; [done|].
  apply IH.
Qed.

Lemma count_policies_timeline months policies :
  timeline (count_policies months policies)
  = foldl (λ obj p, bump_month (String.substring 0 7 (published_date p)) obj)
          (timeline_init months) policies.
Proof.
  unfold count_policies.
  generalize (timeline_init months), byType_init, byDomain_init, byRegulator_init.
  induction policies as [|p l IH]; intros tl ty dm rg; simpl; [done|].
  apply IH.
Qed.

Lemma document_type_key_inj t t' :
  document_type_key t = document_type_key t' → t = t'.
Proof. destruct t, t'; simpl; intros H; (reflexivity || discriminate H). Qed.

(** X20: the counter per domain and the counter per document type have an
    entry for every value of their enum, which is the number of records with
    that value. *)
Theorem by_domain_and_by_type_count localeCompare Date_getTime months policies :
  let r := AnalyticsRoute.GET localeCompare Date_getTime months policies in
  (∀ d, by_domain r !! domain_key d
        = Some (length (List.filter (λ p, bool_decide (domain p = d)) policies)))
  ∧ (∀ t, by_type r !! document_type_key t
          = Some (length (List.filter
                            (λ p, bool_decide (document_type p = t)) policies))).
Proof.
  intros r. subst r. cbn [AnalyticsRoute.GET by_domain by_type]. split.
  - intros d. rewrite count_policies_byDomain, bump_all_lookup.
    rewrite (List.filter_ext _ (λ p, bool_decide (domain p = d))).
    2:{ intros p. apply bool_decide_ext.
        split; [apply domain_key_inj | by intros ->]. }
    by destruct d.
  - intros t. rewrite count_policies_byType, bump_all_lookup.
    rewrite (List.filter_ext _ (λ p, bool_decide (document_type p = t))).
    2:{ intros p. apply bool_decide_ext.
        split; [apply document_type_key_inj | by intros ->]. }
    by destruct t.
Qed.

Lemma counts_total_insert (k : string) (n : nat) (m : gmap string nat) :
  m !! k = None → counts_total (<[k := n]> m) = (n + counts_total m)%nat.
Proof.
  intros Hk. unfold counts_total.
  rewrite map_fold_insert_L; [done | intros; lia | done].
Qed.

Lemma counts_total_bump (k : string) (m : gmap string nat) :
  counts_total (bump k m)
  = match m !! k with
    | Some _ => S (counts_total m)
    | None => counts_total m
    end.
Proof.
  unfold bump. destruct (m !! k) as [n|] eqn:Hk; [|done].
  rewrite <- (insert_delete_eq m k (S n)).
  rewrite <- (insert_delete_id m k n Hk) at 2.
  rewrite !counts_total_insert by apply lookup_delete_eq. lia.
Qed.

Lemma bump_is_Some (k k' : string) (m : gmap string nat) :
  is_Some (bump k m !! k') ↔ is_Some (m !! k').
Proof.
  rewrite bump_lookup. destruct (decide (k = k')); [|done].
  by rewrite fmap_is_Some.
Qed.

Lemma counts_total_bump_all {A} (key : A → string) (l : list A)
    (m : gmap string nat) :
  counts_total (foldl (λ m a, bump (key a) m) m l)
  = (counts_total m
     + length (List.filter (λ a, bool_decide (is_Some (m !! key a))) l))%nat.
Proof.
  revert m. induction l as [|a l IH]; intros m; simpl; [lia|].
  rewrite IH, counts_total_bump.
  rewrite (List.filter_ext _ (λ a, bool_decide (is_Some (m !! key a))))
    by (intros b; apply bool_decide_ext, bump_is_Some).
  destruct (m !! key a) as [n|] eqn:Hk.
  - rewrite bool_decide_eq_true_2 by done. simpl. lia.
  - rewrite bool_decide_eq_false_2 by (by intros []). done.
Qed.

(** X21: the counts per domain add up to the number of records, and so do
    the counts per document type. *)
Theorem by_domain_and_by_type_total localeCompare Date_getTime months policies :
  let r := AnalyticsRoute.GET localeCompare Date_getTime months policies in
  counts_total (by_domain r) = length policies
  ∧ counts_total (by_type r) = length policies.
Proof.
  intros r. subst r. cbn [AnalyticsRoute.GET by_domain by_type]. split.
  - rewrite count_policies_byDomain, counts_total_bump_all.
    rewrite (List.filter_ext _ (λ _, true)), filter_true; [done|].
    intros p. apply bool_decide_eq_true. by destruct (domain p).
  - rewrite count_policies_byType, counts_total_bump_all.
    rewrite (List.filter_ext _ (λ _, true)), filter_true; [done|].
    intros p. apply bool_decide_eq_true. by destruct (document_type p).
Qed.

Lemma own_value_app key (l1 l2 : list (string * option nat)) :
  own_value key (l1 ++ l2)
  = match own_value key l1 with
    | Some v => Some v
    | None => own_value key l2
    end.
Proof.
  induction l1 as [|[k v] l1 IH]; [done|]. simpl.
  by destruct (String.eqb k key).
Qed.

Lemma own_value_entries key (f : string → option nat) (ms : list string) :
  own_value key (map (λ m, (m, f m)) ms)
  = if decide (key ∈ ms) then Some (f key) else None.
Proof.
  induction ms as [|m ms IH]; simpl.
  - by destruct (decide (key ∈ [])) as [?%elem_of_nil|].
  - destruct (String.eqb_spec m key) as [->|Hne].
    + by rewrite decide_True by left.
    + rewrite IH. destruct (decide (key ∈ ms)) as [Hin|Hnin].
      * by rewrite decide_True by (by right).
      * rewrite decide_False; [done|]. by intros [?|?]%elem_of_cons.
Qed.

Lemma set_own_app_l key v w (l1 l2 : list (string * option nat)) :
  own_value key l1 = Some w → set_own key v (l1 ++ l2) = set_own key v l1 ++ l2.
Proof.
  induction l1 as [|[k u] l1 IH]; [done|]. simpl.
  destruct (String.eqb k key); [done|]. intros H. by rewrite IH.
Qed.

Lemma set_own_app_r key v (l1 l2 : list (string * option nat)) :
  own_value key l1 = None → set_own key v (l1 ++ l2) = l1 ++ set_own key v l2.
Proof.
  induction l1 as [|[k u] l1 IH]; [done|]. simpl.
  destruct (String.eqb k key); [done|]. intros H. by rewrite IH.
Qed.

Lemma set_own_entries key (f g : string → option nat) (ms : list string) :
  NoDup ms → key ∈ ms → (∀ m, m ≠ key → g m = f m) →
  set_own key (g key) (map (λ m, (m, f m)) ms) = map (λ m, (m, g m)) ms.
Proof.
  intros Hnd Hin Hg. induction Hnd as [|m ms Hm Hnd IH]; simpl.
  { by apply elem_of_nil in Hin. }
  destruct (String.eqb_spec m key) as [->|Hne].
  - f_equal. apply map_ext_in. intros m' Hmin%list_elem_of_In.
    assert (Hne : m' ≠ key) by (intros ->; by apply Hm).
    by rewrite (Hg m' Hne).
  - assert (Hne' : m ≠ key) by done.
    rewrite (Hg m Hne'). f_equal. apply IH.
    by apply elem_of_cons in Hin as [->|?].
Qed.

Lemma substring_length_le (n : nat) (s : string) :
  (String.length (String.substring 0 n s) <= n)%nat.
Proof.
  revert s. induction n as [|n IH]; intros [|c s]; simpl; try lia.
  specialize (IH s). lia.
Qed.

Lemma short_member_is_valueOf (key : string) :
  (String.length key <= 7)%nat → key ∈ JS.Object_prototype_members →
  key = "valueOf".
Proof.
  intros Hlen Hin. unfold JS.Object_prototype_members in Hin.
  repeat (apply elem_of_cons in Hin as [->|Hin];
          [first [reflexivity | simpl in Hlen; lia]|]).
  by apply elem_of_nil in Hin.
Qed.

Lemma month_key_not_member (m : string) :
  is_month_key m = true → m ∉ JS.Object_prototype_members.
Proof.
  intros Hm Hin. unfold JS.Object_prototype_members in Hin.
  repeat (apply elem_of_cons in Hin as [->|Hin]; [discriminate Hm|]).
  by apply elem_of_nil in Hin.
Qed.

Section Timeline.
Variable months : list string.
Hypothesis Hnd : NoDup months.
Hypothesis Hkeys : Forall (λ m, is_month_key m = true) months.

Lemma month_not_member m : m ∈ months → m ∉ JS.Object_prototype_members.
Proof.
  intros Hm. apply month_key_not_member.
  rewrite Forall_forall in Hkeys. by apply Hkeys.
Qed.

Lemma month_not_proto m : m ∈ months → String.eqb m "__proto__" = false.
Proof.
  intros Hm. apply String.eqb_neq. intros ->.
  apply (month_not_member _ Hm). unfold JS.Object_prototype_members.
  do 10 right. left.
Qed.

Lemma bump_month_shape key c seen :
  (String.length key <= 7)%nat →
  bump_month key (timeline_shape months c seen)
  = timeline_shape months (λ m, (c m + if bool_decide (key = m) then 1 else 0)%nat)
          (seen || String.eqb key "valueOf").
Proof using Hnd Hkeys.
  intros Hlen. unfold bump_month, timeline_shape.
  rewrite own_value_app, (own_value_entries key (λ m, Some (c m))).
  destruct (decide (key ∈ months)) as [Hin|Hnin].
  - unfold assign. rewrite (month_not_proto _ Hin).
    rewrite (set_own_app_l _ _ (Some (c key)))
      by (rewrite (own_value_entries key (λ m, Some (c m)));
          by rewrite decide_True).
    assert (Hv : String.eqb key "valueOf" = false).
    { apply String.eqb_neq. intros ->. apply (month_not_member _ Hin).
      unfold JS.Object_prototype_members. do 9 right. left. }
    rewrite Hv, orb_false_r. f_equal.
    rewrite <- (set_own_entries key (λ m, Some (c m))
                 (λ m, Some (c m + if bool_decide (key = m) then 1 else 0)%nat))
      ; [|done..|].
    + cbn [fmap option_fmap option_map].
      rewrite bool_decide_eq_true_2 by done. do 2 f_equal. lia.
    + intros m Hm. rewrite bool_decide_eq_false_2 by done. f_equal. lia.
  - assert (Hsame : map (λ m, (m, Some (c m + if bool_decide (key = m)
                                               then 1 else 0)%nat)) months
                    = map (λ m, (m, Some (c m))) months).
    { apply map_ext_in. intros m Hm%list_elem_of_In.
      rewrite bool_decide_eq_false_2 by (by intros ->). do 2 f_equal. lia. }
    rewrite Hsame.
    destruct (String.eqb_spec key "valueOf") as [->|Hne].
    + rewrite orb_true_r.
      assert (Hfresh : own_value "valueOf" (map (λ m, (m, Some (c m))) months)
                       = None).
      { rewrite (own_value_entries "valueOf" (λ m, Some (c m))).
        by rewrite decide_False. }
      assert (Hset : ∀ v l,
                assign "valueOf" v (map (λ m, (m, Some (c m))) months ++ l)
                = map (λ m, (m, Some (c m))) months ++ set_own "valueOf" v l).
      { intros v l. unfold assign.
        change (String.eqb "valueOf" "__proto__") with false. cbv iota.
        by apply set_own_app_r. }
      destruct seen.
      * change (own_value "valueOf" [("valueOf", @None nat)])
          with (Some (@None nat)).
        by rewrite Hset.
      * change (own_value "valueOf" (@nil (string * option nat)))
          with (@None (option nat)).
        rewrite bool_decide_eq_true_2
          by (unfold JS.Object_prototype_members; do 9 right; left).
        by rewrite Hset.
    + rewrite orb_false_r.
      assert (Hown : own_value key (if seen then [("valueOf", None)] else [])
                     = None).
      { destruct seen; [|done]. cbn [own_value].
        by destruct (String.eqb_spec "valueOf" key) as [<-|]. }
      rewrite Hown.
      rewrite bool_decide_eq_false_2; [done|].
      intros Hmem. by apply Hne, short_member_is_valueOf.
Qed.

Lemma bump_months_shape policies c seen :
  foldl (λ obj p, bump_month (String.substring 0 7 (published_date p)) obj)
        (timeline_shape months c seen) policies
  = timeline_shape months (λ m, (c m + published_in m policies)%nat)
          (seen || published_under "valueOf" policies).
Proof using Hnd Hkeys.
  revert c seen. induction policies as [|p l IH]; intros c seen.
  - cbn [foldl]. unfold timeline_shape, published_in, published_under.
    cbn [List.filter length existsb]. rewrite orb_false_r. f_equal.
    apply map_ext. intros m. do 2 f_equal. lia.
  - cbn [foldl]. rewrite bump_month_shape by apply substring_length_le.
    rewrite IH. unfold timeline_shape, published_in, published_under.
    cbn [List.filter existsb]. rewrite orb_assoc. f_equal.
    apply map_ext. intros m. do 2 f_equal.
    destruct (bool_decide (String.substring 0 7 (published_date p) = m));
      simpl; lia.
Qed.

Lemma timeline_init_shape : timeline_init months = timeline_shape months (λ _, 0%nat) false.
Proof using Hnd Hkeys.
  unfold timeline_init, timeline_shape. rewrite app_nil_r.
  assert (Hgen : ∀ done rest,
            NoDup (done ++ rest) →
            (∀ m, m ∈ rest → String.eqb m "__proto__" = false) →
            foldl (λ obj key, assign key (Some 0%nat) obj)
                  (map (λ m, (m, Some 0%nat)) done) rest
            = map (λ m, (m, Some 0%nat)) (done ++ rest)).
  { intros done rest. revert done.
    induction rest as [|k rest IH]; intros done Hnodup Hproto.
    { by rewrite app_nil_r. }
    cbn [foldl]. unfold assign at 2. rewrite (Hproto k) by left.
    assert (Hfresh : k ∉ done).
    { apply NoDup_app in Hnodup as (_ & Hdis & _). intros Hk.
      apply (Hdis k Hk). left. }
    replace (set_own k (Some 0%nat) (map (λ m, (m, Some 0%nat)) done))
      with (map (λ m, (m, Some 0%nat)) (done ++ [k])).
    - rewrite IH.
      + by rewrite <- app_assoc.
      + by rewrite <- app_assoc.
      + intros m Hm. apply Hproto. by right.
    - rewrite map_app. rewrite <- (app_nil_r (map _ done)) at 2.
      rewrite set_own_app_r; [done|].
      rewrite (own_value_entries k (λ _, Some 0%nat)).
      by rewrite decide_False. }
  apply (Hgen [] months); [done|]. intros m Hm. by apply month_not_proto.
Qed.

End Timeline.

(** X22: with distinct month keys of the form [YYYY-MM], the timeline has
    one entry per key, in the order of the keys, whose count is the number
    of records whose [published_date] starts with that key, and, when the
    [published_date] of some record starts with [valueOf] (a name that every
    object inherits), one more entry [valueOf] whose count is [null]; a
    record of any other month is in no entry. *)
Theorem analytics_timeline localeCompare Date_getTime months policies :
  NoDup months →
  Forall (λ m, is_month_key m = true) months →
  an_timeline (AnalyticsRoute.GET localeCompare Date_getTime months policies)
  = map (λ month, (month, Some (published_in month policies))) months
    ++ (if published_under "valueOf" policies
        then [("valueOf", None)] else []).
Proof.
  intros Hnd Hkeys. cbn [AnalyticsRoute.GET an_timeline].
  rewrite count_policies_timeline, (timeline_init_shape months Hnd Hkeys).
  by rewrite (bump_months_shape months Hnd Hkeys).
Qed.

Lemma analytics_timeline_witness :
  let policies :=
    [sample "a" "2024-01-15" CC governance guidance;
     sample "b" "2024-03-01" ICO gdpr enforcement;
     sample "c" "valueOf" ICO gdpr enforcement;
     sample "d" "2024-01-25" HSE health_safety alert] in
  (NoDup ["2024-01"; "2024-02"]
   ∧ Forall (λ m, is_month_key m = true) ["2024-01"; "2024-02"])
  ∧ an_timeline (AnalyticsRoute.GET Ascii_instances.localeCompare
                   Ascii_instances.Date_getTime ["2024-01"; "2024-02"] policies)
    = [("2024-01", Some 2%nat); ("2024-02", Some 0%nat); ("valueOf", None)].
Proof.
  intros policies.
  assert (Hnd : NoDup ["2024-01"; "2024-02"]).
  { apply NoDup_ListNoDup. repeat constructor; simpl; intros H;
      repeat destruct H as [H|H]; (discriminate H || done). }
  assert (Hk : Forall (λ m, is_month_key m = true) ["2024-01"; "2024-02"])
    by (repeat constructor).
  split; [by split|].
  exact (analytics_timeline Ascii_instances.localeCompare
           Ascii_instances.Date_getTime ["2024-01"; "2024-02"] policies Hnd Hk).
Defined.

Lemma consistent_flip_key (localeCompare : string → string → Z)
    (key : CharityPolicy → string) :
  consistent_comparator localeCompare →
  consistent_comparator (λ a b, localeCompare (key b) (key a)).
Proof.
  intros [Hs Ht]. split.
  - intros a b. apply Hs.
  - intros a b c H1 H2. by apply (Ht _ (key b)).
Qed.

Lemma StronglySorted_take {A} (R : relation A) (n : nat) (l : list A) :
  StronglySorted R l → StronglySorted R (take n l).
Proof.
  intros Hl. rewrite <- (take_drop n l) in Hl.
  by apply StronglySorted_app_1_l in Hl.
Qed.

(** X23: the recent high-risk list holds at most ten records, each a record
    of the input whose risk level is [high] or [critical], the most recently
    published first. *)
Theorem highRisk_top_ten localeCompare policies :
  consistent_comparator localeCompare →
  let hr := highRisk localeCompare policies in
  (length hr <= 10)%nat
  ∧ (∀ p, p ∈ hr →
       p ∈ policies
       ∧ (risk_level p = Some high ∨ risk_level p = Some critical))
  ∧ StronglySorted
      (λ a b, 0 <= localeCompare (published_date a) (published_date b)) hr.
Proof.
  intros Hc hr. subst hr. unfold highRisk.
  rewrite slice_from_zero by lia. change (Z.to_nat 10) with 10%nat.
  split; [rewrite length_take; lia|]. split.
  - intros p Hp%(subseteq_take 10). rewrite sort_Permutation in Hp.
    apply list_elem_of_In, List.filter_In in Hp as [Hp Hr].
    split; [by apply list_elem_of_In|].
    apply orb_true_iff in Hr as [Hr|Hr]; apply bool_decide_eq_true in Hr; auto.
  - apply StronglySorted_take.
    eapply StronglySorted_weaken;
      [|apply (sort_StronglySorted _
                 (consistent_flip_key localeCompare published_date Hc))].
    intros a b. cbv beta. intros Hab.
    pose proof (cmp_swap _ Hc (published_date a) (published_date b)). lia.
Qed.

Lemma highRisk_top_ten_witness :
  let policies :=
    [sample "a" "2024-01-15" CC governance guidance;
     {| id := "b"; title := "Fine"; summary := "Penalty";
        source_url := "https://example.org"; published_date := "2024-02-01";
        last_updated := "2024-02-01"; regulator := ICO; domain := gdpr;
        document_type := enforcement; charity_name := None;
        risk_level := Some critical; case_id := None;
        sanctions_regime := None; designated_by := None; keywords := None |}] in
  consistent_comparator Ascii_instances.localeCompare
  ∧ (length (highRisk Ascii_instances.localeCompare policies) <= 10)%nat.
Proof.
  intros policies. split; [exact ascii_localeCompare_consistent|].
  exact (proj1 (highRisk_top_ten Ascii_instances.localeCompare policies
                  ascii_localeCompare_consistent)).
Defined.

(** X24: one record whose [last_updated] the [Date] parser cannot read makes
    the [last_updated] of the summary [null] in the body, whatever the other
    records are: the same answer as for no record at all. *)
Theorem analytics_last_updated_unreadable localeCompare Date_getTime months
    policies p :
  p ∈ policies →
  Date_getTime (last_updated p) = None →
  sm_last_updated
    (an_summary (AnalyticsRoute.GET localeCompare Date_getTime months policies))
  = sm_last_updated
      (an_summary (AnalyticsRoute.GET localeCompare Date_getTime months []))
  ∧ sm_last_updated
      (an_summary (AnalyticsRoute.GET localeCompare Date_getTime months policies))
    = None.
Proof.
  intros Hp Hnone. cbn [AnalyticsRoute.GET an_summary].
  unfold summary_of; cbn [sm_last_updated].
  by rewrite (last_updated_value_NaN Date_getTime policies p Hp Hnone).
Qed.

Lemma analytics_last_updated_unreadable_witness :
  let p := sample "b" "" ICO gdpr enforcement in
  let policies := [sample "a" "2024-01-15" CC governance guidance; p] in
  (p ∈ policies ∧ Ascii_instances.Date_getTime (last_updated p) = None)
  ∧ sm_last_updated
      (an_summary (AnalyticsRoute.GET Ascii_instances.localeCompare
                     Ascii_instances.Date_getTime [] policies))
    = None.
Proof.
  intros p policies.
  assert (Hp : p ∈ policies) by (right; left).
  split; [split; [exact Hp | reflexivity]|].
  exact (proj2 (analytics_last_updated_unreadable Ascii_instances.localeCompare
                  Ascii_instances.Date_getTime [] policies p Hp eq_refl)).
Defined.

(** ** The charity route *)

Lemma strict_eq_true (a : option string) (s : string) :
  JSText.strict_eq a s = true ↔ a = Some s.
Proof.
  destruct a as [x|]; simpl; [|by split].
  rewrite String.eqb_eq. split; [by intros -> | by intros [=]].
Qed.

Lemma for_charity_true {number} (regNo : string)
    (p : CharityRoute.RegisterPolicy number) :
  CharityRoute.for_charity regNo p = true
  ↔ CharityRoute.charity_number p = Some regNo
    ∨ CharityRoute.cc_registered_number p = Some regNo.
Proof.
  unfold CharityRoute.for_charity.
  by rewrite orb_true_iff, !strict_eq_true.
Qed.

(** X25: the charity route answers with the records whose charity number or
    register number is the requested one, in the order of the record set;
    [total] is their number; and the charity block is [null] exactly when
    no record of the set carries the requested number. *)
Theorem charity_route_policies {number}
    (policies : list (CharityRoute.RegisterPolicy number)) (regNo : string) :
  let r := CharityRoute.GET policies regNo in
  CharityRoute.cr_total r = Z.of_nat (length (CharityRoute.cr_policies r))
  ∧ CharityRoute.cr_policies r `sublist_of` policies
  ∧ (∀ p, p ∈ CharityRoute.cr_policies r
          ↔ p ∈ policies
            ∧ (CharityRoute.charity_number p = Some regNo
               ∨ CharityRoute.cc_registered_number p = Some regNo))
  ∧ (CharityRoute.cr_charity r = None
     ↔ ∀ p, p ∈ policies →
            CharityRoute.charity_number p ≠ Some regNo
            ∧ CharityRoute.cc_registered_number p ≠ Some regNo).
Proof.
  intros r. subst r. unfold CharityRoute.GET.
  cbn [CharityRoute.cr_total CharityRoute.cr_policies CharityRoute.cr_charity].
  split; [done|]. split; [apply List_filter_sublist|].
  assert (Hin : ∀ p, p ∈ List.filter (CharityRoute.for_charity regNo) policies
                     ↔ p ∈ policies
                       ∧ (CharityRoute.charity_number p = Some regNo
                          ∨ CharityRoute.cc_registered_number p = Some regNo)).
  { intros p.
    by rewrite !list_elem_of_In, List.filter_In, for_charity_true. }
  split; [exact Hin|].
  destruct (List.filter (CharityRoute.for_charity regNo) policies)
    as [|first rest] eqn:E.
  - split; [|done]. intros _ p Hp.
    split; intros Hn;
      (assert (Hp' : p ∈ @nil (CharityRoute.RegisterPolicy number))
         by (apply Hin; auto));
      by apply elem_of_nil in Hp'.
  - split; [done|]. intros Hnone.
    assert (Hf : first ∈ first :: rest) by left.
    apply Hin in Hf as [Hf [H1|H1]]; by destruct (Hnone first Hf).
Qed.

(** X26: when the requested number is not empty, the charity block, if
    there is one, carries a non-empty charity number: the requested number,
    or else the charity number of a record whose register number is the
    requested one. *)
Theorem charity_route_number {number}
    (policies : list (CharityRoute.RegisterPolicy number)) (regNo : string)
    (info : CharityRoute.CharityInfo number) :
  JS.truthy regNo = true →
  CharityRoute.cr_charity (CharityRoute.GET policies regNo) = Some info →
  ∃ n, CharityRoute.ci_charity_number info = Some n
       ∧ JS.truthy n = true
       ∧ (n = regNo
          ∨ ∃ first, first ∈ policies
                     ∧ CharityRoute.charity_number first = Some n
                     ∧ CharityRoute.cc_registered_number first = Some regNo).
Proof.
  intros Hreg. unfold CharityRoute.GET. cbn [CharityRoute.cr_charity].
  destruct (List.filter (CharityRoute.for_charity regNo) policies)
    as [|first rest] eqn:E; [done|].
  intros [= <-]. cbn [CharityRoute.ci_charity_number].
  assert (Hf : In first (List.filter (CharityRoute.for_charity regNo) policies))
    by (rewrite E; by left).
  apply List.filter_In in Hf as [Hf Hm]. apply list_elem_of_In in Hf.
  apply for_charity_true in Hm. unfold JSText.or_else.
  destruct (CharityRoute.charity_number first) as [c|] eqn:Hc; cbn [JS.truthy_opt].
  - destruct (JS.truthy c) eqn:Htc.
    + exists c. split; [done|]. split; [done|].
      destruct Hm as [[= ->]|Hm]; [by left|]. right. by exists first.
    + destruct Hm as [[= ->]|Hm]; [congruence|].
      exists regNo. split; [done|]. split; [done|]. by left.
  - destruct Hm as [Hm|Hm]; [done|].
    exists regNo. split; [done|]. split; [done|]. by left.
Qed.

Lemma charity_route_number_witness :
  let first : CharityRoute.RegisterPolicy Z :=
    {| CharityRoute.policy := sample "a" "2024-01-15" CC governance case;
       CharityRoute.charity_number := None;
       CharityRoute.cc_registered_number := Some "1234567";
       CharityRoute.cc_status := Some "Registered";
       CharityRoute.cc_latest_income := Some 250000;
       CharityRoute.cc_primary_region := None;
       CharityRoute.cc_governing_document := None |} in
  JS.truthy "1234567" = true
  ∧ ∃ info,
      CharityRoute.cr_charity (CharityRoute.GET [first] "1234567") = Some info
      ∧ CharityRoute.ci_charity_number info = Some "1234567".
Proof.
  intros first. split; [reflexivity|]. eexists. split; [reflexivity|].
  destruct (charity_route_number [first] "1234567" _ eq_refl eq_refl)
    as (n & Hn & _).
  reflexivity.
Defined.

(** ** The policies route *)

Lemma slice_subseteq {A} (arr : list A) (s e : Z) : JS.slice arr s e ⊆ arr.
Proof.
  unfold JS.slice. etrans; [apply subseteq_take|]. apply subseteq_drop.
Qed.

(** The route's sort is [sortPolicies] for the three sort fields. *)
Lemma sortPolicies_by_name_text localeCompare other_text sort_compares_first
    policies name order :
  (∀ a, a ∈ policies →
        is_Some (PoliciesRoute.text_property other_text name a)) →
  PoliciesRoute.sortPolicies_by_name localeCompare other_text
    sort_compares_first policies name order
  = Some (JS.sort
            (PoliciesRoute.comparator_by_name localeCompare other_text
               name order)
            policies).
Proof.
  intros Htext. unfold PoliciesRoute.sortPolicies_by_name.
  destruct (length policies <=? 1)%nat eqn:Hlen; [done|].
  destruct policies as [|a l]; [done|].
  cbn [forallb].
  destruct (Htext a) as [s ->]; [left|]. cbn [andb].
  match goal with
  | |- (if existsb ?f ?l && _ then _ else _) = _ =>
      assert (Hnone : existsb f l = false)
  end.
  { apply not_true_iff_false.
    intros (x & Hx%list_elem_of_In & Hthrows)%existsb_exists.
    destruct (Htext x Hx) as [s' Hs']. by rewrite Hs' in Hthrows. }
  by rewrite Hnone.
Qed.

Lemma sortPolicies_by_name_sort_field localeCompare other_text
    sort_compares_first policies name sortBy order :
  sort_field_of_key name = Some sortBy →
  PoliciesRoute.sortPolicies_by_name localeCompare other_text
    sort_compares_first policies name order
  = Some (sortPolicies localeCompare policies sortBy order).
Proof.
  intros Hname.
  assert (Hkey : ∀ a, PoliciesRoute.text_property other_text name a
                      = Some (sort_key sortBy a)).
  { intros a. unfold sort_field_of_key in Hname.
    destruct (String.eqb_spec name "published_date") as [->|_];
      [by injection Hname as <-|].
    destruct (String.eqb_spec name "last_updated") as [->|_];
      [by injection Hname as <-|].
    destruct (String.eqb_spec name "title") as [->|_]; [|done].
    by injection Hname as <-. }
  rewrite sortPolicies_by_name_text by (intros a _; by rewrite Hkey).
  f_equal. unfold sortPolicies. apply sort_ext. intros a b.
  rewrite sort_comparator_key.
  unfold PoliciesRoute.comparator_by_name, PoliciesRoute.shown.
  by rewrite !Hkey.
Qed.



(** What every answer of the route is: the error of the [catch] only when
    two records or more pass the filters and one of them has no string under
    the name that [sort_by] gives; and otherwise a body whose [total] is the
    number of records that pass the filters and whose page is made of such
    records. *)
Lemma policies_route_answer toLowerCase localeCompare parseInt
    other_text sort_compares_first allPolicies q :
  let kept :=
    filterPolicies toLowerCase allPolicies (PoliciesRoute.filters_of_query q) in
  let name := JSText.or_default (PoliciesRoute.q_sort_by q) "published_date" in
  match PoliciesRoute.GET toLowerCase localeCompare parseInt other_text
          sort_compares_first allPolicies q with
  | PoliciesRoute.Ok r =>
      PoliciesRoute.rs_success r = true
      ∧ PoliciesRoute.pb_total (PoliciesRoute.rs_result r)
        = Z.of_nat (length kept)
      ∧ ∀ p, p ∈ PoliciesRoute.pb_data (PoliciesRoute.rs_result r) → p ∈ kept
  | PoliciesRoute.Failed =>
      (2 ≤ length kept)%nat
      ∧ ∃ p, p ∈ kept ∧ PoliciesRoute.text_property other_text name p = None
  end.
Proof.
  intros kept name. unfold PoliciesRoute.GET. fold kept. fold name.
  unfold PoliciesRoute.sortPolicies_by_name.
  set (order := PoliciesRoute.sort_order_of_key _).
  set (cmp := PoliciesRoute.comparator_by_name _ _ _ _).
  set (throws := λ a : CharityPolicy,
         match PoliciesRoute.text_property other_text name a with
         | Some _ => false
         | None => true
         end).
  assert (Hok : ∀ page perPage,
    let result := PoliciesRoute.paginate_body (JS.sort cmp kept) page perPage in
    PoliciesRoute.pb_total result = Z.of_nat (length kept)
    ∧ ∀ p, p ∈ PoliciesRoute.pb_data result → p ∈ kept).
  { intros page perPage. unfold PoliciesRoute.paginate_body.
    cbn [PoliciesRoute.pb_total PoliciesRoute.pb_data]. split.
    - by rewrite sort_Permutation.
    - intros p Hp. rewrite <- (sort_Permutation cmp kept).
      destruct page as [| |pg]; try by apply elem_of_nil in Hp.
      destruct perPage as [| |pp]; try by apply elem_of_nil in Hp.
      unfold paginatePolicies in Hp; cbn [pg_data] in Hp.
      by apply slice_subseteq in Hp. }
  assert (Hthrows : ∀ l, existsb throws l = true →
    ∃ p, p ∈ l ∧ PoliciesRoute.text_property other_text name p = None).
  { intros l (p & Hp%list_elem_of_In & Hnone)%existsb_exists. exists p.
    split; [done|]. unfold throws in Hnone.
    by destruct (PoliciesRoute.text_property other_text name p). }
  destruct (Nat.leb_spec (length kept) 1) as [Hshort|Hlong].
  { split; [done|]. apply Hok. }
  destruct (forallb throws kept) eqn:Hall.
  { split; [lia|]. apply Hthrows.
    destruct kept as [|p l]; [simpl in Hlong; lia|].
    cbn [forallb existsb] in *. apply andb_true_iff in Hall as [-> _]. done. }
  destruct (existsb throws kept) eqn:Hsome; cbn [andb].
  - destruct (sort_compares_first cmp throws kept).
    + split; [lia|]. by apply Hthrows.
    + split; [done|]. apply Hok.
  - split; [done|]. apply Hok.
Qed.

(** A request sorted by [id], which is none of the three sort fields, is
    answered: its page holds the records by ascending [id]. *)
Example policies_route_sort_by_id other_text sort_compares_first :
  let a := sample "b" "2024-01-15" CC governance case in
  let b := sample "a" "2024-01-16" ICO gdpr guidance in
  PoliciesRoute.GET Ascii_instances.toLowerCase Ascii_instances.localeCompare
    ascii_parseInt other_text sort_compares_first [a; b]
    (PoliciesRoute.mkQuery None None None None None None
                           None None None None (Some "id") (Some "asc"))
  = PoliciesRoute.Ok
      {| PoliciesRoute.rs_success := true;
         PoliciesRoute.rs_result :=
           {| PoliciesRoute.pb_data := [b; a]; PoliciesRoute.pb_total := 2;
              PoliciesRoute.pb_page := Some 1;
              PoliciesRoute.pb_totalPages := Some 1 |};
         PoliciesRoute.rs_available_regulators :=
           PoliciesRoute.available_regulators;
         PoliciesRoute.rs_available_domains := PoliciesRoute.available_domains;
         PoliciesRoute.rs_available_document_types :=
           PoliciesRoute.available_document_types |}.
Proof. reflexivity. Qed.

(** A request sorted by a name under which the records hold nothing gets the
    error of the [catch] as soon as two records pass the filters, and the
    body of the [try] when one does. *)
Example policies_route_sort_by_unknown other_text sort_compares_first :
  let a := sample "a" "2024-01-15" CC governance case in
  let b := sample "b" "2024-01-16" ICO gdpr guidance in
  let q regulators :=
    PoliciesRoute.mkQuery None regulators None None None None
                          None None None None (Some "rank") None in
  PoliciesRoute.GET Ascii_instances.toLowerCase Ascii_instances.localeCompare
    ascii_parseInt other_text sort_compares_first [a; b] (q None)
  = PoliciesRoute.Failed
  ∧ PoliciesRoute.pb_data ∘ PoliciesRoute.rs_result
      <$> (match PoliciesRoute.GET Ascii_instances.toLowerCase
                   Ascii_instances.localeCompare ascii_parseInt other_text
                   sort_compares_first [a; b] (q (Some "ICO")) with
           | PoliciesRoute.Ok r => Some r
           | PoliciesRoute.Failed => None
           end)
    = Some [b].
Proof. split; reflexivity. Qed.

(** The request without any parameter: the first twenty records of the
    whole set, the most recently published first. *)
Lemma policies_route_defaults toLowerCase localeCompare parseInt
    other_text sort_compares_first allPolicies :
  parseInt "1" = JSText.Finite 1 → parseInt "20" = JSText.Finite 20 →
  ∃ r,
    PoliciesRoute.GET toLowerCase localeCompare parseInt other_text
      sort_compares_first allPolicies
      (PoliciesRoute.mkQuery None None None None None None
                             None None None None None None)
    = PoliciesRoute.Ok r
    ∧ PoliciesRoute.pb_data (PoliciesRoute.rs_result r)
      = pg_data
          (paginatePolicies
             (sortPolicies localeCompare allPolicies by_published_date desc)
             1 20).
Proof.
  intros H1 H20. unfold PoliciesRoute.GET.
  cbn [PoliciesRoute.q_page PoliciesRoute.q_per_page PoliciesRoute.q_sort_by
       PoliciesRoute.q_sort_order JSText.or_default JS.truthy_opt].
  rewrite H1, H20.
  rewrite (sortPolicies_by_name_sort_field _ _ _ _ _ by_published_date)
    by reflexivity.
  eexists. split; reflexivity.
Qed.

(** A page or a page size that is not a number gives an empty page, with
    [null] for what could not be computed. *)
Example policies_route_page_not_a_number other_text sort_compares_first :
  let a := sample "a" "2024-01-15" CC governance case in
  PoliciesRoute.GET Ascii_instances.toLowerCase
    Ascii_instances.localeCompare ascii_parseInt other_text
    sort_compares_first [a]
    (PoliciesRoute.mkQuery None None None None None None
                           None None (Some "abc") (Some "0") None None)
  = PoliciesRoute.Ok
      {| PoliciesRoute.rs_success := true;
         PoliciesRoute.rs_result :=
           {| PoliciesRoute.pb_data := []; PoliciesRoute.pb_total := 1;
              PoliciesRoute.pb_page := None;
              PoliciesRoute.pb_totalPages := None |};
         PoliciesRoute.rs_available_regulators :=
           PoliciesRoute.available_regulators;
         PoliciesRoute.rs_available_document_types :=
           PoliciesRoute.available_document_types;
         PoliciesRoute.rs_available_domains :=
           PoliciesRoute.available_domains |}.
Proof. reflexivity. Qed.

(** ** The explorer page and the policies route *)

Lemma split_without_sep (sep : ascii) (s : string) :
  JSText.has_char sep s = false → JSText.split sep s = [s].
Proof.
  induction s as [|c s IH]; simpl; [done|].
  destruct (Ascii.eqb c sep); [done|]. simpl. intros Hs. by rewrite IH.
Qed.

Lemma split_app_sep (sep : ascii) (a b : string) :
  JSText.has_char sep a = false →
  JSText.split sep (a +:+ String sep b) = a :: JSText.split sep b.
Proof.
  induction a as [|c a IH]; simpl.
  - intros _. by rewrite Ascii.eqb_refl.
  - destruct (Ascii.eqb c sep); [done|]. simpl. intros Ha. by rewrite IH.
Qed.

(** Splitting what was joined gives the list back. *)
Lemma split_join (sep : ascii) (l : list string) :
  l ≠ [] →
  Forall (λ s, JSText.has_char sep s = false) l →
  JSText.split sep (JSText.join (String sep "") l) = l.
Proof.
  unfold JSText.join. intros Hne Hl.
  induction Hl as [|x l Hx Hl IH]; [done|].
  destruct l as [|y l].
  - by apply split_without_sep.
  - change (String.concat (String sep "") (x :: y :: l))
      with (x +:+ String sep (String.concat (String sep "") (y :: l))).
    rewrite split_app_sep by done. f_equal. by apply IH.
Qed.

Lemma omap_key_round_trip {A} (key : A → string) (of_key : string → option A)
    (l : list A) :
  (∀ a, of_key (key a) = Some a) → omap of_key (map key l) = l.
Proof.
  intros Hkey. induction l as [|x l IH]; [done|].
  change (omap of_key (map key (x :: l)))
    with (match of_key (key x) with
          | Some y => y :: omap of_key (map key l)
          | None => omap of_key (map key l)
          end).
  by rewrite Hkey, IH.
Qed.

Lemma facet_round_trip {A} (key : A → string) (of_key : string → option A)
    (arr : list A) :
  (∀ a, of_key (key a) = Some a) →
  (∀ a, JSText.has_char "," (key a) = false) →
  (∀ a, JS.truthy (key a) = true) →
  PoliciesRoute.facet_of_param of_key (ExplorerPage.list_param key arr)
  = match arr with [] => None | _ => Some (Many arr) end.
Proof.
  intros Hkey Hcomma Htruthy. destruct arr as [|a arr]; [done|].
  unfold PoliciesRoute.facet_of_param, ExplorerPage.list_param.
  assert (Ht : JS.truthy (JSText.join "," (map key (a :: arr))) = true).
  { unfold JSText.join. cbn [map String.concat].
    specialize (Htruthy a). destruct (key a) as [|c s]; [done|].
    by destruct (map key arr). }
  rewrite (truthy_opt_Some _ Ht). cbn [fmap option_fmap option_map].
  rewrite split_join; [|done|].
  - do 2 f_equal. by apply omap_key_round_trip.
  - apply Forall_forall. intros s (x & -> & _)%list_elem_of_fmap.
    apply Hcomma.
Qed.

(** X28: the filters that the policies route builds from the parameters
    sent by the explorer page are the filters the state of the page stands
    for: the selections of regulators, domains and document types come out
    of the joined and split strings as they were, in the same order. *)
Theorem explorer_filters_reach_route String_of_number st :
  PoliciesRoute.filters_of_query (ExplorerPage.params String_of_number st)
  = filters_of_state st.
Proof.
  unfold PoliciesRoute.filters_of_query, ExplorerPage.params, filters_of_state.
  cbn [PoliciesRoute.q_search PoliciesRoute.q_regulator PoliciesRoute.q_domain
       PoliciesRoute.q_document_type PoliciesRoute.q_date_from
       PoliciesRoute.q_date_to PoliciesRoute.q_cases_only
       PoliciesRoute.q_risk_level].
  rewrite (facet_round_trip regulator_key regulator_of_key);
    [|by intros []..].
  rewrite (facet_round_trip domain_key domain_of_key); [|by intros []..].
  rewrite (facet_round_trip document_type_key document_type_of_key);
    [|by intros []..].
  assert (Htext : ∀ s, JS.truthy_opt (ExplorerPage.text_param s)
                       = ExplorerPage.text_param s).
  { intros s. unfold ExplorerPage.text_param.
    destruct (JS.truthy s) eqn:Hs; [by apply truthy_opt_Some | done]. }
  rewrite !Htext.
  by destruct (ExplorerPage.selectedRegulators st),
              (ExplorerPage.selectedDomains st),
              (ExplorerPage.selectedTypes st), (ExplorerPage.casesOnly st).
Qed.

(** X29: toggling a value flips whether it is selected and changes the
    selection of no other value. *)
Theorem toggle_elem_of {A} `{EqDecision A} (x y : A) (prev : list A) :
  y ∈ ExplorerPage.toggle x prev
  ↔ (y ≠ x ∧ y ∈ prev) ∨ (y = x ∧ x ∉ prev).
Proof.
  unfold ExplorerPage.toggle.
  destruct (JS.array_includes prev x) eqn:Hinc.
  - apply array_includes_elem_of in Hinc.
    rewrite list_elem_of_In, List.filter_In, <- list_elem_of_In.
    rewrite negb_true_iff, bool_decide_eq_false.
    split; [intros [? ?]; by left | intros [[? ?]|[-> ?]]; done].
  - assert (Hnin : x ∉ prev).
    { intros Hin%array_includes_elem_of. congruence. }
    rewrite elem_of_app, list_elem_of_singleton.
    split.
    + intros [Hy| ->]; [|by right]. left. split; [|done]. by intros ->.
    + intros [[? ?]|[? ?]]; [by left | by right].
Qed.

(** Toggling twice a value that was not selected gives the selection
    back, in the same order. *)
Lemma toggle_twice {A} `{EqDecision A} (x : A) (prev : list A) :
  x ∉ prev → ExplorerPage.toggle x (ExplorerPage.toggle x prev) = prev.
Proof.
  intros Hnin. unfold ExplorerPage.toggle at 2.
  assert (Hinc : JS.array_includes prev x = false).
  { destruct (JS.array_includes prev x) eqn:E; [|done].
    by apply array_includes_elem_of in E. }
  rewrite Hinc. unfold ExplorerPage.toggle.
  assert (Hinc' : JS.array_includes (prev ++ [x]) x = true).
  { apply array_includes_elem_of, elem_of_app. right. left. }
  rewrite Hinc', List.filter_app. cbn [List.filter].
  rewrite bool_decide_eq_true_2 by done. cbn [negb]. rewrite app_nil_r.
  clear Hinc Hinc'. induction prev as [|a l IH]; [done|].
  apply not_elem_of_cons in Hnin as [Hne Hnin]. cbn [List.filter].
  rewrite bool_decide_eq_false_2 by done. cbn [negb]. by rewrite IH.
Qed.

Lemma toggle_twice_witness :
  (gdpr ∉ [governance; sanctions])
  ∧ ExplorerPage.toggle gdpr (ExplorerPage.toggle gdpr [governance; sanctions])
    = [governance; sanctions].
Proof.
  assert (Hn : gdpr ∉ [governance; sanctions]).
  { intros H. repeat (apply elem_of_cons in H as [H|H]; [discriminate H|]).
    by apply elem_of_nil in H. }
  split; [exact Hn|].
  exact (toggle_twice gdpr [governance; sanctions] Hn).
Defined.

(** ** The loader *)

Lemma split_nonempty (sep : ascii) (s : string) : JSText.split sep s ≠ [].
Proof.
  destruct s as [|c s]; simpl; [done|].
  destruct (Ascii.eqb c sep); [done|]. by destruct (JSText.split sep s).
Qed.

Lemma split_parts_without_sep (sep : ascii) (s k : string) :
  k ∈ JSText.split sep s → JSText.has_char sep k = false.
Proof.
  revert k. induction s as [|c s IH]; intros k; simpl.
  - by intros ->%list_elem_of_singleton.
  - destruct (Ascii.eqb c sep) eqn:Hc.
    + intros [->|Hk]%elem_of_cons; [done | by apply IH].
    + destruct (JSText.split sep s) as [|w ws].
      * intros ->%list_elem_of_singleton. simpl. by rewrite Hc.
      * intros [->|Hk]%elem_of_cons.
        -- simpl. rewrite Hc. apply IH. left.
        -- apply IH. by right.
Qed.

(** X30: in every record the loader makes, whatever the row, an optional
    text field is absent or a non-empty string, never the empty string; the
    keywords are absent or a non-empty list of strings without the separator
    [|]; the fields of the required and enum columns are the cells of the
    row, unchecked; and a record that is a [CharityPolicy] has the same
    optional fields, so its [case_id] is never the empty string. *)
Theorem loader_record_invariants row :
  let r := Loader.policy_of_row row in
  (Loader.l_charity_name r ≠ Some "" ∧ Loader.l_case_id r ≠ Some ""
   ∧ Loader.l_sanctions_regime r ≠ Some ""
   ∧ Loader.l_designated_by r ≠ Some "" ∧ Loader.l_risk_level r ≠ Some "")
  ∧ Loader.l_keywords r ≠ Some []
  ∧ (∀ ks k, Loader.l_keywords r = Some ks → k ∈ ks →
             JSText.has_char "|" k = false)
  ∧ (Loader.l_regulator r = row !! "regulator"
     ∧ Loader.l_domain r = row !! "domain"
     ∧ Loader.l_document_type r = row !! "document_type"
     ∧ Loader.l_last_updated r = row !! "last_updated")
  ∧ (∀ p, Loader.as_CharityPolicy r = Some p →
          case_id p ≠ Some "" ∧ charity_name p ≠ Some ""
          ∧ sanctions_regime p ≠ Some "" ∧ designated_by p ≠ Some ""
          ∧ keywords p ≠ Some []
          ∧ row !! "regulator" = Some (regulator_key (regulator p))
          ∧ row !! "last_updated" = Some (last_updated p)).
Proof.
  intros r.
  assert (Hkw : Loader.l_keywords r ≠ Some []).
  { subst r. cbn [Loader.policy_of_row Loader.l_keywords].
    unfold Loader.optional_list.
    destruct (JS.truthy_opt (row !! "keywords")); [|done]. simpl.
    intros [= Hs]. by apply split_nonempty in Hs. }
  split; [repeat split; apply truthy_opt_not_empty|].
  split; [exact Hkw|]. split; [|split; [done|]].
  - intros ks k. subst r. cbn [Loader.policy_of_row Loader.l_keywords].
    unfold Loader.optional_list.
    destruct (JS.truthy_opt (row !! "keywords")); [|done]. simpl.
    intros [= <-]. apply split_parts_without_sep.
  - intros p Hp. unfold Loader.as_CharityPolicy in Hp.
    destruct (Loader.l_id r); cbn [mbind option_bind] in Hp; [|done].
    destruct (Loader.l_title r); cbn [mbind option_bind] in Hp; [|done].
    destruct (Loader.l_summary r); cbn [mbind option_bind] in Hp; [|done].
    destruct (Loader.l_source_url r); cbn [mbind option_bind] in Hp; [|done].
    destruct (Loader.l_published_date r);
      cbn [mbind option_bind] in Hp; [|done].
    destruct (Loader.l_last_updated r) as [lu|] eqn:Hlu;
      cbn [mbind option_bind] in Hp; [|done].
    destruct (Loader.l_regulator r) as [rk|] eqn:Hrk;
      cbn [mbind option_bind] in Hp; [|done].
    destruct (regulator_of_key rk) as [rg|] eqn:Hr;
      cbn [mbind option_bind] in Hp; [|done].
    destruct (Loader.l_domain r) as [dk|];
      cbn [mbind option_bind] in Hp; [|done].
    destruct (domain_of_key dk) as [d|];
      cbn [mbind option_bind] in Hp; [|done].
    destruct (Loader.l_document_type r) as [tk|];
      cbn [mbind option_bind] in Hp; [|done].
    destruct (document_type_of_key tk) as [t|];
      cbn [mbind option_bind] in Hp; [|done].
    match type of Hp with
    | mbind _ ?x = _ =>
        destruct x as [rl|]; cbn [mbind option_bind] in Hp; [|done]
    end.
    injection Hp as <-.
    cbn [charity_name case_id sanctions_regime designated_by keywords
         regulator last_updated].
    split; [apply truthy_opt_not_empty|]. split; [apply truthy_opt_not_empty|].
    split; [apply truthy_opt_not_empty|]. split; [apply truthy_opt_not_empty|].
    split; [exact Hkw|].
    apply List.find_some in Hr as [_ Hr%String.eqb_eq].
    split; [|exact Hlu]. rewrite Hr. exact Hrk.
Qed.

Lemma loader_record_invariants_witness :
  let row : gmap string string :=
    list_to_map
      [("id", "cc_1_2024-01-15"); ("title", "Inquiry"); ("summary", "Report");
       ("source_url", "https://example.org");
       ("published_date", "2024-01-15"); ("last_updated", "2024-01-16");
       ("regulator", "OSCR"); ("domain", "governance");
       ("document_type", "case"); ("case_id", "");
       ("keywords", "fraud|trustee")] in
  ∃ p, Loader.as_CharityPolicy (Loader.policy_of_row row) = Some p
       ∧ case_id p = None
       ∧ keywords p = Some ["fraud"; "trustee"]
       ∧ case_id p ≠ Some "".
Proof.
  intros row. eexists. split; [vm_compute; reflexivity|].
  split; [reflexivity|]. split; [reflexivity|].
  exact (proj1 (proj2 (proj2 (proj2 (proj2 (loader_record_invariants row))))
                 _ eq_refl)).
Defined.

(** A row whose regulator is not of the enum is loaded all the same. *)
Example loader_keeps_unknown_regulator :
  let row : gmap string string :=
    list_to_map
      [("id", "x_1"); ("title", "T"); ("summary", "S");
       ("regulator", "XYZ"); ("case_id", ""); ("keywords", "fraud|trustee")] in
  Loader.l_regulator (Loader.policy_of_row row) = Some "XYZ"
  ∧ Loader.l_case_id (Loader.policy_of_row row) = None
  ∧ Loader.l_keywords (Loader.policy_of_row row) = Some ["fraud"; "trustee"]
  ∧ Loader.l_last_updated (Loader.policy_of_row row) = None
  ∧ Loader.as_CharityPolicy (Loader.policy_of_row row) = None.
Proof. vm_compute. repeat split. Qed.

(** A missing data file gives the empty record set, and otherwise there is
    one record per row. *)
Lemma getAllPolicies_length file :
  length (Loader.getAllPolicies file)
  = match file with Some rows => length rows | None => 0%nat end.
Proof. destruct file as [rows|]; simpl; [apply length_map | done]. Qed.
